(** * ccNexus: the control-plane application (app.go), its HTTP entry point
    (main.go) and the statistics discipline of the proxy engine.

    The development follows the Go sources: byte strings with the [strings]
    helpers the code calls, the [App] methods as state-passing functions over
    the process state, and the collaborators that live in other packages
    ([config], [proxy], [net/http], [encoding/json]) as an interface the
    results are proved for every implementation of. *)

From Stdlib Require Import ZArith Ascii DecimalString DecimalPos Lia.
From stdpp Require Import base option list gmap strings.

Local Open Scope Z_scope.

(* ===================================================================== *)
(** ** Go byte strings and the [strings] package functions used by app.go *)
(* ===================================================================== *)

Module Strings.

(** [s[:n]] *)
Fixpoint take (n : nat) (s : string) : string :=
  match n, s with
  | S n', String c s' => String c (take n' s')
  | _, _ => EmptyString
  end.

(** [s[n:]] *)
Fixpoint drop (n : nat) (s : string) : string :=
  match n, s with
  | S n', String _ s' => drop n' s'
  | _, _ => s
  end.

(** [len(s) >= len(prefix) && s[:len(prefix)] == prefix] *)
Definition HasPrefix (s prefix : string) : bool :=
  (String.length prefix <=? String.length s)%nat
  && String.eqb (take (String.length prefix) s) prefix.

(** [len(s) >= len(suffix) && s[len(s)-len(suffix):] == suffix] *)
Definition HasSuffix (s suffix : string) : bool :=
  (String.length suffix <=? String.length s)%nat
  && String.eqb (drop (String.length s - String.length suffix) s) suffix.

Definition TrimPrefix (s prefix : string) : string :=
  if HasPrefix s prefix then drop (String.length prefix) s else s.

Definition TrimSuffix (s suffix : string) : string :=
  if HasSuffix s suffix
  then take (String.length s - String.length suffix) s
  else s.

(** [%d] of [fmt.Sprintf] for an [int]. *)
Definition itoa (z : Z) : string := NilEmpty.string_of_int (Z.to_int z).

End Strings.

(** app.go, [normalizeAPIUrl]. *)
Definition normalizeAPIUrl (apiUrl : string) : string :=
  let apiUrl := Strings.TrimPrefix apiUrl "https://" in
  let apiUrl := Strings.TrimPrefix apiUrl "http://" in
  let apiUrl := Strings.TrimSuffix apiUrl "/" in
  apiUrl.

(** What "no scheme prefix and no trailing slash" means for a host. *)
Definition schemeFree (h : string) : bool :=
  negb (Strings.HasPrefix h "http://") && negb (Strings.HasPrefix h "https://").

Definition slashFree (h : string) : bool := negb (Strings.HasSuffix h "/").

Definition cleanHost (h : string) : bool := schemeFree h && slashFree h.

(* ===================================================================== *)
(** ** Data of the collaborating packages, as app.go uses it *)
(* ===================================================================== *)

(** A Go [error] value is carried by its message; [None] is [nil]. *)
Definition error : Type := string.

(** [config.Endpoint], with the fields app.go fills in. *)
Record Endpoint := mkEndpoint {
  Name : string;
  APIUrl : string;
  APIKey : string;
  Enabled : bool;
  Transformer : string;
  Model : string;
  Remark : string
}.

(** [config.Config]: the fields app.go reads and writes through the
    accessors [GetEndpoints]/[UpdateEndpoints], [UpdatePort],
    [GetLogLevel]/[UpdateLogLevel] and [GetLanguage]/[UpdateLanguage]. *)
Record Config := mkConfig {
  Port : Z;
  Endpoints : list Endpoint;
  LogLevel : Z;
  Language : string
}.

Definition setEndpoints (eps : list Endpoint) (c : Config) : Config :=
  {| Port := Port c; Endpoints := eps;
     LogLevel := LogLevel c; Language := Language c |}.

Definition setPort (p : Z) (c : Config) : Config :=
  {| Port := p; Endpoints := Endpoints c;
     LogLevel := LogLevel c; Language := Language c |}.

(** Calls made to the [logger] package, in order. *)
Inductive Level := DEBUG | INFO | WARN | ERROR.

Definition LogCall : Type := Level * string.

(** JSON values: what app.go hands to [json.Marshal] and what
    [json.Unmarshal] gives back as [interface{}]. A number is kept as its
    literal. *)
#[warnings="-register-all"]
Inductive JSON :=
| JNull
| JBool (b : bool)
| JNumber (lit : string)
| JString (s : string)
| JArray (xs : list JSON)
| JObject (m : gmap string JSON).

(** ** net/http *)

Module Header.

Definition isLower (c : ascii) : bool :=
  let n := nat_of_ascii c in ((97 <=? n) && (n <=? 122))%nat.
Definition isUpper (c : ascii) : bool :=
  let n := nat_of_ascii c in ((65 <=? n) && (n <=? 90))%nat.
Definition isDigit (c : ascii) : bool :=
  let n := nat_of_ascii c in ((48 <=? n) && (n <=? 57))%nat.

(** The token bytes of a header field name. *)
Definition validHeaderFieldByte (c : ascii) : bool :=
  isLower c || isUpper c || isDigit c
  || existsb (Ascii.eqb c) (String.list_ascii_of_string "!#$%&'*+-.^_`|~").

Definition toLower : nat := 32.

Fixpoint canonicalLoop (upper : bool) (a : string) : string :=
  match a with
  | EmptyString => EmptyString
  | String c a' =>
      let c' :=
        if upper && isLower c then ascii_of_nat (nat_of_ascii c - toLower)
        else if negb upper && isUpper c
             then ascii_of_nat (nat_of_ascii c + toLower)
             else c in
      String c' (canonicalLoop (Ascii.eqb c' "-") a')
  end.

(** [textproto.CanonicalMIMEHeaderKey]: a key that is not made of token
    bytes is left as it is. *)
Definition CanonicalMIMEHeaderKey (s : string) : string :=
  if forallb validHeaderFieldByte (String.list_ascii_of_string s)
  then canonicalLoop true s
  else s.

(** [http.Header], one value per key as [Set] leaves it. *)
Abbreviation t := (gmap string string).

Definition Set_ (key value : string) (h : t) : t :=
  <[CanonicalMIMEHeaderKey key := value]> h.

Definition Get (key : string) (h : t) : option string :=
  h !! CanonicalMIMEHeaderKey key.

End Header.

(** [time.Duration] counts nanoseconds. *)
Definition Second : Z := 1000000000.

(** [http.Client], with the field app.go sets. *)
Record Client := mkClient { Timeout : Z }.

(** [http.Request] as app.go builds it: the URL text handed to
    [http.NewRequest], the parameters app.go afterwards adds to the query of
    the parsed URL, the headers and the body before marshalling. *)
Record Request := mkRequest {
  Method : string;
  URL : string;
  AddedQuery : list (string * string);
  Headers : Header.t;
  Body : JSON
}.

(** What [client.Do] followed by [io.ReadAll(resp.Body)] yields. *)
Record Response := mkResponse {
  StatusCode : Z;
  ReadAll : error + string
}.

Definition StatusOK : Z := 200.

(* ===================================================================== *)
(** ** The statistics store of the proxy engine *)
(* ===================================================================== *)

Module Stats.

(** Modelled from the spec: package [internal/proxy], which holds the
    statistics store, is not among the sources; app.go only reads it
    through [GetStats] and the front end displays it. The record and the
    three recording operations follow the specification's statistics
    store: counters keyed by upstream name, [RecordAttempt] adds one
    request and stamps [lastUsed], [RecordTokens] adds the token counts,
    [RecordError] adds one error. The counters are declared [u64] and
    monotonically increasing; they are the naturals they count. *)
Record EndpointStat := mkStat {
  requests : N;
  errors : N;
  inputTokens : N;
  outputTokens : N;
  lastUsed : N
}.

Definition total (st : EndpointStat) : N :=
  (inputTokens st + outputTokens st)%N.

Definition zero : EndpointStat := mkStat 0 0 0 0 0.

Abbreviation Store := (gmap string EndpointStat).

(** The entry of a name; a name never seen has all counters at zero. *)
Definition entry (name : string) (s : Store) : EndpointStat :=
  default zero (s !! name).

(** Modelled from the spec: [RecordAttempt(name)], [requests += 1] and
    [lastUsed = now]. *)
Definition RecordAttempt (name : string) (now : N) (s : Store) : Store :=
  let st := entry name s in
  <[name := mkStat (requests st + 1) (errors st)
                   (inputTokens st) (outputTokens st) now]> s.

(** Modelled from the spec: [RecordTokens(name, in, out)],
    [inputTokens += in] and [outputTokens += out]. *)
Definition RecordTokens (name : string) (tin tout : N) (s : Store) : Store :=
  let st := entry name s in
  <[name := mkStat (requests st) (errors st)
                   (inputTokens st + tin) (outputTokens st + tout)
                   (lastUsed st)]> s.

(** Modelled from the spec: [RecordError(name)], [errors += 1]. *)
Definition RecordError (name : string) (s : Store) : Store :=
  let st := entry name s in
  <[name := mkStat (requests st) (errors st + 1)
                   (inputTokens st) (outputTokens st) (lastUsed st)]> s.

(** Modelled from the spec: the engine's use of the store. The updates of
    one attempt are sequenced [RecordAttempt], then [RecordError] or
    [RecordTokens]; attempts of concurrent requests interleave freely. A
    cancelled attempt ends without a record. The store is saved now and
    then, and a restart reloads what was last saved (nothing, at first)
    with no attempt in flight. [inflight] counts, per name, the attempts
    recorded and not yet ended. *)
Inductive Event :=
| Attempt (name : string) (now : N)
| Failed (name : string)
| Succeeded (name : string) (tin tout : N)
| Cancelled (name : string)
| Saved
| Restarted.

Record Engine := mkEngine {
  store : Store;
  inflight : gmap string N;
  saved : Store
}.

Definition init : Engine := mkEngine ∅ ∅ ∅.

Definition pending (name : string) (e : Engine) : N :=
  default 0%N (inflight e !! name).

Definition finish (name : string) (s : Store) (e : Engine) : option Engine :=
  if (0 <? pending name e)%N
  then Some (mkEngine s (<[name := (pending name e - 1)%N]> (inflight e))
                      (saved e))
  else None.

(** Modelled from the spec: one step of the engine; an attempt can only
    end while it is in flight. *)
Definition apply (ev : Event) (e : Engine) : option Engine :=
  match ev with
  | Attempt name now =>
      Some (mkEngine (RecordAttempt name now (store e))
                     (<[name := (pending name e + 1)%N]> (inflight e))
                     (saved e))
  | Failed name => finish name (RecordError name (store e)) e
  | Succeeded name tin tout =>
      finish name (RecordTokens name tin tout (store e)) e
  | Cancelled name => finish name (store e) e
  | Saved => Some (mkEngine (store e) (inflight e) (store e))
  | Restarted => Some (mkEngine (saved e) ∅ (saved e))
  end.

Fixpoint run (evs : list Event) (e : Engine) : option Engine :=
  match evs with
  | [] => Some e
  | ev :: evs' =>
      match apply ev e with
      | Some e' => run evs' e'
      | None => None
      end
  end.

(** The states the engine can bring the store to. *)
Definition reachable (s : Store) : Prop :=
  ∃ evs e, run evs init = Some e ∧ store e = s.

(** Every error recorded for a name, and every attempt on it still in
    flight, has its request counted; so has every error of the saved
    store. *)
Definition accounted (e : Engine) : Prop :=
  ∀ name,
    (errors (entry name (store e)) + pending name e
     ≤ requests (entry name (store e)))%N
    ∧ (errors (entry name (saved e)) ≤ requests (entry name (saved e)))%N.

(** The front end's [loadStats]: the successes counted for one entry,
    [epStats.requests - epStats.errors]. *)
Definition successes (st : EndpointStat) : Z :=
  Z.of_N (requests st) - Z.of_N (errors st).

End Stats.

(* ===================================================================== *)
(** ** The collaborators of app.go and the process state *)
(* ===================================================================== *)

(** The functions of the packages [config], [proxy], [net/http] and
    [encoding/json] that app.go calls, for a proxy whose state has type
    [Proxy]. Their code is outside app.go; every result below holds
    whatever they do. *)
Class Externals (Proxy : Type) := {
  (** [Config.Validate] *)
  ConfigValidate : Config → option error;
  (** [Config.Save(path)]: the error of the write, if any *)
  ConfigSave : string → Config → option error;
  (** [config.GetConfigPath], [config.Load], [config.DefaultConfig] *)
  GetConfigPath : error + string;
  ConfigLoad : string → error + Config;
  DefaultConfig : Config;
  (** [proxy.New], [Proxy.Start], [Proxy.Stop], [Proxy.UpdateConfig],
      [Proxy.GetStats().Save] *)
  ProxyNew : Config → Proxy;
  ProxyStart : Config → Proxy → option error * Proxy;
  ProxyStop : Proxy → Proxy;
  ProxyUpdateConfig : Config → Proxy → option error * Proxy;
  ProxyStatsSave : Proxy → option error;
  (** the port the proxy's listener is bound to, if it is listening *)
  Listening : Proxy → option Z;
  (** the engine's statistics *)
  ProxyStats : Proxy → Stats.Store;
  (** [http.NewRequest]: the error for a URL text, if any *)
  NewRequestErr : string → option error;
  (** [http.Client.Do] and the reading of the response body *)
  ClientDo : Client → Request → error + Response;
  (** [json.Unmarshal] into a [map[string]interface{}] *)
  Unmarshal : string → option (gmap string JSON)
}.

(** The same collaborators with another [Config.Validate]. *)
Definition withValidate {Proxy : Type} (v : Config → option error)
    (E : Externals Proxy) : Externals Proxy := {|
  ConfigValidate := v;
  ConfigSave := ConfigSave;
  GetConfigPath := GetConfigPath;
  ConfigLoad := ConfigLoad;
  DefaultConfig := DefaultConfig;
  ProxyNew := ProxyNew;
  ProxyStart := ProxyStart;
  ProxyStop := ProxyStop;
  ProxyUpdateConfig := ProxyUpdateConfig;
  ProxyStatsSave := ProxyStatsSave;
  Listening := Listening;
  ProxyStats := ProxyStats;
  NewRequestErr := NewRequestErr;
  ClientDo := ClientDo;
  Unmarshal := Unmarshal
|}.

Section App.

Context {Proxy : Type}.

(** The [App] struct ([config], [proxy], [configPath]) together with what
    its methods act on outside it: the configuration files, the logger (its
    minimum level and the calls made to it) and the requests sent out.
    [config] is the one [Config] object that [App] and the proxy share by
    pointer. *)
Record World := mkWorld {
  config : Config;
  proxy : Proxy;
  configPath : string;
  disk : gmap string Config;
  minLevel : option Z;
  logs : list LogCall;
  wire : list (Client * Request)
}.

Definition withConfig (c : Config) (w : World) : World :=
  mkWorld c (proxy w) (configPath w) (disk w) (minLevel w) (logs w) (wire w).
Definition withProxy (p : Proxy) (w : World) : World :=
  mkWorld (config w) p (configPath w) (disk w) (minLevel w) (logs w) (wire w).
Definition withDisk (d : gmap string Config) (w : World) : World :=
  mkWorld (config w) (proxy w) (configPath w) d (minLevel w) (logs w) (wire w).
Definition withLogs (l : list LogCall) (w : World) : World :=
  mkWorld (config w) (proxy w) (configPath w) (disk w) (minLevel w) l (wire w).
Definition withWire (x : list (Client * Request)) (w : World) : World :=
  mkWorld (config w) (proxy w) (configPath w) (disk w) (minLevel w) (logs w) x.

(** Methods run in a state monad over [World]. *)
Definition M (A : Type) : Type := World → A * World.

Context {Ext : Externals Proxy}.

#[export] Instance M_ret : MRet M := λ A a w, (a, w).
#[export] Instance M_bind : MBind M :=
  λ A B f m w, let '(a, w') := m w in f a w'.

(** [if err := m; err != nil { return err }], then [k]. *)
Definition orReturn (m k : M (option error)) : M (option error) :=
  err ← m;
  match err with
  | Some e => mret (Some e)
  | None => k
  end.

(** *** The calls into the collaborators *)

Definition GetEndpoints : M (list Endpoint) :=
  λ w, (Endpoints (config w), w).

Definition UpdateEndpoints (eps : list Endpoint) : M unit :=
  λ w, (tt, withConfig (setEndpoints eps (config w)) w).

Definition ConfigUpdatePort (port : Z) : M unit :=
  λ w, (tt, withConfig (setPort port (config w)) w).

Definition Validate : M (option error) :=
  λ w, (ConfigValidate (config w), w).

Definition Save : M (option error) :=
  λ w, match ConfigSave (configPath w) (config w) with
       | Some e => (Some e, w)
       | None => (None, withDisk (<[configPath w := config w]> (disk w)) w)
       end.

Definition UpdateConfig : M (option error) :=
  λ w, let '(err, p) := ProxyUpdateConfig (config w) (proxy w) in
       (err, withProxy p w).

Definition log (lvl : Level) (msg : string) : M unit :=
  λ w, (tt, withLogs (logs w ++ [(lvl, msg)]) w).

Definition Do (client : Client) (req : Request) : M (error + Response) :=
  λ w, (ClientDo client req, withWire (wire w ++ [(client, req)]) w).

(** [index < 0 || index >= len(endpoints)] *)
Definition badIndex (index : Z) (endpoints : list Endpoint) : bool :=
  (index <? 0) || (index >=? Z.of_nat (length endpoints)).

(** The zero value of [config.Endpoint]. *)
#[export] Instance Endpoint_inhabited : Inhabited Endpoint :=
  populate (mkEndpoint "" "" "" false "" "" "").

End App.

Arguments World : clear implicits.

Notation "'check' m ; k" := (orReturn m k)
  (at level 20, m at level 100, k at level 200, only parsing) : stdpp_scope.

(* ===================================================================== *)
(** ** app.go: the endpoint and port operations *)
(* ===================================================================== *)

Section Operations.

Context {Proxy : Type} {Ext : Externals Proxy}.

(** [if transformer == "" { transformer = "claude" }] *)
Definition orClaude (transformer : string) : string :=
  if decide (transformer = "") then "claude" else transformer.

(** [AddEndpoint] *)
Definition AddEndpoint (name apiUrl apiKey transformer model remark : string)
  : M (option error) :=
  let transformer := orClaude transformer in
  let apiUrl := normalizeAPIUrl apiUrl in
  endpoints ← GetEndpoints;
  let endpoints :=
    endpoints ++ [mkEndpoint name apiUrl apiKey true transformer model remark] in
  UpdateEndpoints endpoints;;
  check Validate;
  check UpdateConfig;
  (if decide (model ≠ "")
   then log INFO ("Endpoint added: " +:+ name +:+ " (" +:+ apiUrl +:+ ") ["
                  +:+ transformer +:+ "/" +:+ model +:+ "]")
   else log INFO ("Endpoint added: " +:+ name +:+ " (" +:+ apiUrl +:+ ") ["
                  +:+ transformer +:+ "]"));;
  Save.

(** [RemoveEndpoint]. The guard keeps [index] within the slice. *)
Definition RemoveEndpoint (index : Z) : M (option error) :=
  endpoints ← GetEndpoints;
  if badIndex index endpoints
  then mret (Some ("invalid endpoint index: " +:+ Strings.itoa index))
  else
    let i := Z.to_nat index in
    let removedName := Name (endpoints !!! i) in
    let endpoints := take i endpoints ++ drop (S i) endpoints in
    UpdateEndpoints endpoints;;
    check (if (0 <? Z.of_nat (length endpoints)) then Validate else mret None);
    check UpdateConfig;
    log INFO ("Endpoint removed: " +:+ removedName);;
    Save.

(** [UpdateEndpoint] *)
Definition UpdateEndpoint (index : Z)
    (name apiUrl apiKey transformer model remark : string)
  : M (option error) :=
  endpoints ← GetEndpoints;
  if badIndex index endpoints
  then mret (Some ("invalid endpoint index: " +:+ Strings.itoa index))
  else
    let i := Z.to_nat index in
    let oldName := Name (endpoints !!! i) in
    let enabled := Enabled (endpoints !!! i) in
    let transformer := orClaude transformer in
    let apiUrl := normalizeAPIUrl apiUrl in
    let endpoints :=
      <[i := mkEndpoint name apiUrl apiKey enabled transformer model remark]>
        endpoints in
    UpdateEndpoints endpoints;;
    check Validate;
    check UpdateConfig;
    (if decide (oldName ≠ name)
     then
       if decide (model ≠ "")
       then log INFO ("Endpoint updated: " +:+ oldName +:+ " → " +:+ name
                      +:+ " (" +:+ apiUrl +:+ ") [" +:+ transformer +:+ "/"
                      +:+ model +:+ "]")
       else log INFO ("Endpoint updated: " +:+ oldName +:+ " → " +:+ name
                      +:+ " (" +:+ apiUrl +:+ ") [" +:+ transformer +:+ "]")
     else
       if decide (model ≠ "")
       then log INFO ("Endpoint updated: " +:+ name +:+ " (" +:+ apiUrl
                      +:+ ") [" +:+ transformer +:+ "/" +:+ model +:+ "]")
       else log INFO ("Endpoint updated: " +:+ name +:+ " (" +:+ apiUrl
                      +:+ ") [" +:+ transformer +:+ "]"));;
    Save.

(** [UpdatePort]. Nothing of the proxy is called: as the source notes,
    changing the port requires a restart. *)
Definition UpdatePort (port : Z) : M (option error) :=
  if (port <? 1) || (port >? 65535)
  then mret (Some ("invalid port: " +:+ Strings.itoa port))
  else
    ConfigUpdatePort port;;
    check Save;
    mret None.

(** [endpoints[index].Enabled = enabled] *)
Definition setEnabled (enabled : bool) (e : Endpoint) : Endpoint :=
  mkEndpoint (Name e) (APIUrl e) (APIKey e) enabled
             (Transformer e) (Model e) (Remark e).

(** [ToggleEndpoint] *)
Definition ToggleEndpoint (index : Z) (enabled : bool) : M (option error) :=
  endpoints ← GetEndpoints;
  if badIndex index endpoints
  then mret (Some ("invalid endpoint index: " +:+ Strings.itoa index))
  else
    let i := Z.to_nat index in
    let endpointName := Name (endpoints !!! i) in
    let endpoints := <[i := setEnabled enabled (endpoints !!! i)]> endpoints in
    UpdateEndpoints endpoints;;
    check UpdateConfig;
    (if enabled
     then log INFO ("Endpoint enabled: " +:+ endpointName)
     else log INFO ("Endpoint disabled: " +:+ endpointName));;
    Save.

End Operations.

(* ===================================================================== *)
(** ** app.go: the one-shot connection test *)
(* ===================================================================== *)

Definition testMessage : string := "你是什么模型?".
Definition testMaxTokens : Z := 16.

(** The map [{"success": ..., "message": ...}] whose JSON text
    [TestEndpoint] returns. *)
Record TestResult := mkResult {
  success : bool;
  message : string
}.

(** The first [switch transformer]: the path and the body of the probe.
    [None] is the [default] branch. Marshalling these maps cannot fail. *)
Definition testPayload (transformer : string) (endpoint : Endpoint)
  : option (string * JSON) :=
  if decide (transformer = "claude") then
    let model :=
      if decide (Model endpoint = "") then "claude-sonnet-4-5-20250929"
      else Model endpoint in
    Some ("/v1/messages",
          JObject {[ "model" := JString model;
                     "max_tokens" := JNumber (Strings.itoa testMaxTokens);
                     "messages" :=
                       JArray [JObject {[ "role" := JString "user";
                                          "content" := JString testMessage ]}] ]})
  else if decide (transformer = "openai") then
    let model :=
      if decide (Model endpoint = "") then "gpt-4-turbo" else Model endpoint in
    Some ("/v1/chat/completions",
          JObject {[ "model" := JString model;
                     "max_tokens" := JNumber (Strings.itoa testMaxTokens);
                     "messages" :=
                       JArray [JObject {[ "role" := JString "user";
                                          "content" := JString testMessage ]}] ]})
  else if decide (transformer = "gemini") then
    let model :=
      if decide (Model endpoint = "") then "gemini-pro" else Model endpoint in
    Some ("/v1beta/models/" +:+ model +:+ ":generateContent",
          JObject {[ "contents" :=
                       JArray [JObject {[ "parts" :=
                         JArray [JObject {[ "text" := JString testMessage ]}] ]}];
                     "generationConfig" :=
                       JObject {[ "maxOutputTokens" :=
                                    JNumber (Strings.itoa testMaxTokens) ]} ]})
  else None.

Definition setHeader (key value : string) (req : Request) : Request :=
  mkRequest (Method req) (URL req) (AddedQuery req)
            (Header.Set_ key value (Headers req)) (Body req).

(** [q := req.URL.Query(); q.Add(key, value); req.URL.RawQuery = q.Encode()] *)
Definition addQuery (key value : string) (req : Request) : Request :=
  mkRequest (Method req) (URL req) (AddedQuery req ++ [(key, value)])
            (Headers req) (Body req).

(** The second [switch transformer]: where the credential goes. *)
Definition setAuth (transformer : string) (endpoint : Endpoint) (req : Request)
  : Request :=
  if decide (transformer = "claude") then
    setHeader "anthropic-version" "2023-06-01"
      (setHeader "x-api-key" (APIKey endpoint) req)
  else if decide (transformer = "openai") then
    setHeader "Authorization" ("Bearer " +:+ APIKey endpoint) req
  else if decide (transformer = "gemini") then
    addQuery "key" (APIKey endpoint) req
  else req.

(** The probe for an endpoint, from [transformer := endpoint.Transformer]
    to the end of the header [switch]: the failure reported, or the request
    that is sent. *)
Definition testRequest {Proxy : Type} {Ext : Externals Proxy} (endpoint : Endpoint)
  : TestResult + Request :=
  let transformer := orClaude (Transformer endpoint) in
  match testPayload transformer endpoint with
  | None => inl (mkResult false ("Unsupported transformer: " +:+ transformer))
  | Some (apiPath, requestBody) =>
      let url := "https://" +:+ APIUrl endpoint +:+ apiPath in
      match NewRequestErr url with
      | Some err => inl (mkResult false ("Failed to create request: " +:+ err))
      | None =>
          let req := mkRequest "POST" url [] ∅ requestBody in
          let req := setHeader "Content-Type" "application/json" req in
          inr (setAuth transformer endpoint req)
      end
  end.

(** The third [switch transformer]: the text taken from a parsed reply. *)
Definition extractMessage (transformer : string) (responseData : gmap string JSON)
  : string :=
  if decide (transformer = "claude") then
    match responseData !! "content" with
    | Some (JArray (JObject textBlock :: _)) =>
        match textBlock !! "text" with
        | Some (JString text) => text
        | _ => ""
        end
    | _ => ""
    end
  else if decide (transformer = "openai") then
    match responseData !! "choices" with
    | Some (JArray (JObject choice :: _)) =>
        match choice !! "message" with
        | Some (JObject msg) =>
            match msg !! "content" with
            | Some (JString content) => content
            | _ => ""
            end
        | _ => ""
        end
    | _ => ""
    end
  else if decide (transformer = "gemini") then
    match responseData !! "candidates" with
    | Some (JArray (JObject candidate :: _)) =>
        match candidate !! "content" with
        | Some (JObject content) =>
            match content !! "parts" with
            | Some (JArray (JObject part :: _)) =>
                match part !! "text" with
                | Some (JString text) => text
                | _ => ""
                end
            | _ => ""
            end
        | _ => ""
        end
    | _ => ""
    end
  else "".

(** The client [TestEndpoint] makes for its probe. *)
Definition testClient : Client := mkClient (30 * Second).

Section Probe.

Context {Proxy : Type} {Ext : Externals Proxy}.

(** From [client.Do(req)] to the end of [TestEndpoint]. *)
Definition sendProbe (endpoint : Endpoint) (req : Request) : M TestResult :=
  let transformer := orClaude (Transformer endpoint) in
  resp ← Do testClient req;
  match resp with
  | inl err =>
      log ERROR ("Test failed for " +:+ Name endpoint +:+ ": " +:+ err);;
      mret (mkResult false ("Request failed: " +:+ err))
  | inr resp =>
      match ReadAll resp with
      | inl err => mret (mkResult false ("Failed to read response: " +:+ err))
      | inr respBody =>
          if decide (StatusCode resp ≠ StatusOK) then
            log ERROR ("Test failed for " +:+ Name endpoint +:+ ": HTTP "
                       +:+ Strings.itoa (StatusCode resp));;
            mret (mkResult false ("HTTP " +:+ Strings.itoa (StatusCode resp)
                                  +:+ ": " +:+ respBody))
          else
            match Unmarshal respBody with
            | None =>
                log INFO ("Test successful for " +:+ Name endpoint);;
                mret (mkResult true respBody)
            | Some responseData =>
                let message := extractMessage transformer responseData in
                let message :=
                  if decide (message = "") then respBody else message in
                log INFO ("Test successful for " +:+ Name endpoint);;
                mret (mkResult true message)
            end
      end
  end.

(** [TestEndpoint] *)
Definition TestEndpoint (index : Z) : M TestResult :=
  endpoints ← GetEndpoints;
  if badIndex index endpoints
  then mret (mkResult false ("Invalid endpoint index: " +:+ Strings.itoa index))
  else
    let endpoint := endpoints !!! Z.to_nat index in
    log INFO ("Testing endpoint: " +:+ Name endpoint +:+ " ("
              +:+ APIUrl endpoint +:+ ")");;
    match testRequest endpoint with
    | inl failure => mret failure
    | inr req => sendProbe endpoint req
    end.

End Probe.

(* ===================================================================== *)
(** ** app.go and main.go: start-up, shut-down and the process exit code *)
(* ===================================================================== *)

Inductive Signal := SIGINT | SIGTERM.

(** What [flag.Parse] makes of the command line. The flag set of the
    process is [flag.CommandLine], made with [flag.ExitOnError]: on a flag
    it cannot parse, [Parse] prints the usage and calls [os.Exit(2)]; on
    [-h] or [-help] it prints the usage and calls [os.Exit(0)]. *)
Inductive FlagParse := FlagsParsed | FlagsHelp | FlagsRefused.

(** What [httpServer.Shutdown()] does. It is [s.e.Shutdown(nil)]: the
    context it hands down is nil, and [http.Server.Shutdown] reads
    [ctx.Done()] as soon as a connection is not idle, which panics. With
    no connection in the way it returns, with an error or none. *)
Inductive ShutdownResult := Returns (err : option error) | Panics.

(** What the process meets when it runs: its command line, environment
    and flags, the outcome of the steps main.go takes outside [App], and
    the signal that ends the wait on [sigChan]. [flagPort] and [flagHost]
    are the values of the flags when the command line is parsed. *)
Record Process := mkProcess {
  flagParse : FlagParse;
  envDEBUG : string;
  enableDebugFile : option error;
  flagPort : Z;
  flagHost : string;
  setupStaticFiles : option error;
  serverStart : string → option error;
  serverShutdown : ShutdownResult;
  signal : Signal;
  files : gmap string Config
}.

Definition ErrServerClosed : error := "http: Server closed".

Section Main.

Context {Proxy : Type} {Ext : Externals Proxy}.

Definition say (lvl : Level) (msg : string) (l : list LogCall) : list LogCall :=
  l ++ [(lvl, msg)].

(** [Startup]. The goroutine that runs [proxy.Start] is taken at the
    point where it is spawned. Every path ends in [return nil]. *)
Definition Startup (p : Process) : option error * World Proxy :=
  let l := say INFO "Application starting..." [] in
  let l :=
    if decide (envDEBUG p ≠ "") then
      match enableDebugFile p with
      | Some err => say WARN ("Failed to enable debug file: " +:+ err) l
      | None => say INFO "Debug file logging enabled: debug.log" l
      end
    else l in
  let '(configPath, l) :=
    match GetConfigPath with
    | inl err =>
        ("config.json",
         say WARN ("Failed to get config path: " +:+ err +:+ ", using default") l)
    | inr path => (path, l)
    end in
  let l := say DEBUG ("Config path: " +:+ configPath) l in
  let '(cfg, d, l) :=
    match ConfigLoad configPath with
    | inl err =>
        let l := say WARN ("Failed to load config: " +:+ err
                           +:+ ", using default") l in
        let cfg := DefaultConfig in
        match ConfigSave configPath cfg with
        | Some err => (cfg, files p, say WARN ("Failed to save config: " +:+ err) l)
        | None => (cfg, <[configPath := cfg]> (files p), l)
        end
    | inr cfg => (cfg, files p, l)
    end in
  let '(lvl, l) :=
    if (LogLevel cfg >=? 0)
    then (Some (LogLevel cfg),
          say DEBUG ("Log level restored from config: "
                     +:+ Strings.itoa (LogLevel cfg)) l)
    else (None, l) in
  let px := ProxyNew cfg in
  let '(err, px) := ProxyStart cfg px in
  let l :=
    match err with
    | Some err => say ERROR ("Proxy server error: " +:+ err) l
    | None => l
    end in
  let l := say INFO "Application started successfully" l in
  (None, mkWorld cfg px configPath d lvl l []).

(** [Shutdown]; [a.proxy] is set once [Startup] has run. *)
Definition Shutdown : M unit :=
  (λ w, match ProxyStatsSave (proxy w) with
        | Some err =>
            (tt, withLogs (say WARN ("Failed to save stats on shutdown: "
                                     +:+ err) (logs w)) w)
        | None => (tt, w)
        end);;
  (λ w, (tt, withProxy (ProxyStop (proxy w)) w));;
  log INFO "Application stopped".

End Main.

(** What the process leaves behind: the state of [App], if one was made,
    and the calls [main] makes to the logger after [app.Shutdown], whose
    last step is [logger.GetLogger().Close()]. These calls reach a closed
    logger, so they are kept apart from [logs]. *)
Record Remains {Proxy : Type} := mkRemains {
  appState : option (World Proxy);
  afterClose : list LogCall
}.

Arguments Remains : clear implicits.
Arguments mkRemains {Proxy} _ _.
Arguments appState {Proxy} _.
Arguments afterClose {Proxy} _.

Section Run.

Context {Proxy : Type} {Ext : Externals Proxy}.

(** [main]: the status the process exits with, and what it leaves.
    [flag.Parse] ends the process by itself on a command line it refuses
    (status 2) or that asks for help (status 0). [os.Exit(1)] is the only
    exit [main] spells out; returning from [main] exits with status 0, and
    a panic ends the process with status 2. The server goroutine, taken
    where it is spawned, runs [Server.Start], which logs the address and
    starts the listener; [main] only logs its error. The deferred
    [Close] of the logger runs when [main] returns or panics, after
    [app.Shutdown] has closed the logger already, and not on [os.Exit].
    The two lines [main] prints to standard output are no part of the
    state. *)
Definition main (p : Process) : Z * Remains Proxy :=
  match flagParse p with
  | FlagsRefused => (2, mkRemains None [])
  | FlagsHelp => (0, mkRemains None [])
  | FlagsParsed =>
      let '(err, w) := Startup p in
      match err with
      | Some err =>
          (1, mkRemains
                (Some (snd (log ERROR ("Failed to startup: " +:+ err) w))) [])
      | None =>
          match setupStaticFiles p with
          | Some err =>
              (1, mkRemains
                    (Some (snd (log ERROR ("Failed to setup static files: "
                                           +:+ err) w))) [])
          | None =>
              let addr := flagHost p +:+ ":" +:+ Strings.itoa (flagPort p) in
              let w := snd (log INFO ("Starting HTTP server on " +:+ addr) w) in
              let w :=
                match serverStart p addr with
                | Some err =>
                    if decide (err ≠ ErrServerClosed)
                    then snd (log ERROR ("Server error: " +:+ err) w)
                    else w
                | None => w
                end in
              (* <-sigChan *)
              let _received := signal p in
              let w := snd (log INFO "Shutting down..." w) in
              let w := snd (Shutdown w) in
              match serverShutdown p with
              | Panics => (2, mkRemains (Some w) [])
              | Returns err =>
                  let l :=
                    match err with
                    | Some err =>
                        say ERROR ("Error shutting down server: " +:+ err) []
                    | None => []
                    end in
                  (0, mkRemains (Some w) (say INFO "Goodbye!" l))
              end
          end
      end
  end.

End Run.

(* ===================================================================== *)
(** ** A concrete set of collaborators, to run the operations on *)
(* ===================================================================== *)

Module Sample.

(** A proxy that remembers the port it was started on, the endpoints it
    routes to and its statistics. *)
Record proxyState := mkProxy {
  bound : option Z;
  routes : list Endpoint;
  engine : Stats.Store
}.

(** A validation that refuses an empty endpoint list. *)
Definition validate (c : Config) : option error :=
  if decide (Endpoints c = []) then Some "no endpoints configured" else None.

Definition anthropic : Endpoint :=
  mkEndpoint "main" "api.anthropic.com" "sk-ant-1" true "claude" "" "".
Definition openai : Endpoint :=
  mkEndpoint "oa" "api.openai.com" "sk-oa-2" false "openai" "gpt-4o" "backup".
Definition gemini : Endpoint :=
  mkEndpoint "gm" "generativelanguage.googleapis.com" "AIza-3" true "gemini"
             "gemini-1.5-pro" "".

Definition cfg3 : Config := mkConfig 3000 [anthropic; openai; gemini] 1 "en".
Definition cfg1 : Config := mkConfig 3000 [anthropic] 1 "en".

(** The collaborators, given what loading the configuration yields and
    the error of binding the proxy's port, if any. *)
Definition ext (loaded : error + Config) (bindErr : option error)
  : Externals proxyState := {|
  ConfigValidate := validate;
  ConfigSave := λ _ _, None;
  GetConfigPath := inr "/home/u/.ccNexus/config.json";
  ConfigLoad := λ _, loaded;
  DefaultConfig := cfg1;
  ProxyNew := λ c, mkProxy None (Endpoints c) ∅;
  ProxyStart := λ c p,
    match bindErr with
    | Some err => (Some err, p)
    | None => (None, mkProxy (Some (Port c)) (routes p) (engine p))
    end;
  ProxyStop := λ p, mkProxy None (routes p) (engine p);
  ProxyUpdateConfig := λ c p, (None, mkProxy (bound p) (Endpoints c) (engine p));
  ProxyStatsSave := λ _, None;
  Listening := bound;
  ProxyStats := engine;
  NewRequestErr := λ _, None;
  ClientDo := λ _ _, inr (mkResponse 200 (inr "{}"));
  Unmarshal := λ _, Some ∅
|}.

(** The configuration loads and the port is free. *)
Definition live : Externals proxyState := ext (inr cfg3) None.

(** The configuration file cannot be read. *)
Definition unreadable : Externals proxyState :=
  ext (inl "invalid character '}' looking for beginning of value") None.

(** The proxy's port is taken. *)
Definition taken : Externals proxyState :=
  ext (inr cfg3) (Some "listen tcp :3000: bind: address already in use").

Definition process (sig : Signal) (startErr : option error) : Process :=
  mkProcess FlagsParsed "" None 8080 "127.0.0.1" None (λ _, startErr)
            (Returns None) sig ∅.

(** The state after a start-up that loads [c]. *)
Definition started (c : Config) : World proxyState :=
  snd (Startup (Ext := ext (inr c) None) (process SIGINT None)).

(** The statistics after the failover of a request from upstream A, which
    answers 503, to upstream B. *)
Definition failover : list Stats.Event :=
  [Stats.Attempt "A" 10; Stats.Failed "A";
   Stats.Attempt "B" 11; Stats.Succeeded "B" 3 1].

End Sample.

(* ===================================================================== *)
(** ** app.go: reordering, the whole-configuration update, log level and
       language *)
(* ===================================================================== *)

Module StringsExt.

(** [strings.Contains(s, substr)] *)
Fixpoint Contains (s substr : string) : bool :=
  Strings.HasPrefix s substr
  || match s with
     | EmptyString => false
     | String _ s' => Contains s' substr
     end.

Definition isASCII (s : string) : bool :=
  forallb (λ c, (nat_of_ascii c <? 128)%nat) (String.list_ascii_of_string s).

(** [c += 'a' - 'A'] for an upper-case letter. *)
Definition lowerByte (c : ascii) : ascii :=
  if Header.isUpper c then ascii_of_nat (nat_of_ascii c + Header.toLower) else c.

Fixpoint lowerASCII (s : string) : string :=
  match s with
  | EmptyString => EmptyString
  | String c s' => String (lowerByte c) (lowerASCII s')
  end.

(** [strings.ToLower]: bytes are lowered one by one when the string is
    ASCII; otherwise the string is mapped rune by rune, which [mapLower]
    stands for. *)
Definition ToLower (mapLower : string → string) (s : string) : string :=
  if isASCII s then lowerASCII s else mapLower s.

(** [strings.Join(elems, sep)] *)
Fixpoint Join (elems : list string) (sep : string) : string :=
  match elems with
  | [] => ""
  | [x] => x
  | x :: rest => x +:+ sep +:+ Join rest sep
  end.

(** [%v] of a [[]string]. *)
Definition showStrings (l : list string) : string :=
  "[" +:+ Join l " " +:+ "]".

End StringsExt.

Definition setLogLevel (level : Z) (c : Config) : Config :=
  {| Port := Port c; Endpoints := Endpoints c;
     LogLevel := level; Language := Language c |}.

Definition setLanguage (language : string) (c : Config) : Config :=
  {| Port := Port c; Endpoints := Endpoints c;
     LogLevel := LogLevel c; Language := language |}.

(** The environment variables [GetSystemLanguage] reads. *)
Record Locale := mkLocale {
  envLANG : string;
  envLC_ALL : string;
  envLANGUAGE : string
}.

(** [GetSystemLanguage] *)
Definition GetSystemLanguage (mapLower : string → string) (env : Locale)
  : string :=
  let locale := envLANG env in
  let locale := if decide (locale = "") then envLC_ALL env else locale in
  let locale := if decide (locale = "") then envLANGUAGE env else locale in
  if decide (locale = "") then "en"
  else if StringsExt.Contains (StringsExt.ToLower mapLower locale) "zh"
       then "zh-CN"
       else "en".

(** [ReorderEndpoints], first loop: the name met a second time, if any. *)
Fixpoint firstDuplicate (seen : gset string) (names : list string)
  : option string :=
  match names with
  | [] => None
  | name :: rest =>
      if decide (name ∈ seen) then Some name
      else firstDuplicate ({[ name ]} ∪ seen) rest
  end.

(** [ReorderEndpoints], second loop: the endpoints by name; of two
    endpoints with one name the later stays. *)
Definition endpointMap (endpoints : list Endpoint) : gmap string Endpoint :=
  foldl (λ m ep, <[Name ep := ep]> m) ∅ endpoints.

(** [ReorderEndpoints], third loop: the endpoints in the order of [names],
    or the first name that is not found. *)
Fixpoint inOrder (m : gmap string Endpoint) (names : list string)
  : string + list Endpoint :=
  match names with
  | [] => inr []
  | name :: rest =>
      match m !! name with
      | None => inl name
      | Some ep =>
          match inOrder m rest with
          | inl missing => inl missing
          | inr eps => inr (ep :: eps)
          end
      end
  end.

Section MoreOperations.

Context {Proxy : Type} {Ext : Externals Proxy}.

(** [ReorderEndpoints] *)
Definition ReorderEndpoints (names : list string) : M (option error) :=
  endpoints ← GetEndpoints;
  if decide (length names ≠ length endpoints)
  then mret (Some ("names array length ("
                   +:+ Strings.itoa (Z.of_nat (length names))
                   +:+ ") doesn't match endpoints count ("
                   +:+ Strings.itoa (Z.of_nat (length endpoints)) +:+ ")"))
  else
    match firstDuplicate ∅ names with
    | Some name =>
        mret (Some ("duplicate endpoint name in reorder request: " +:+ name))
    | None =>
        match inOrder (endpointMap endpoints) names with
        | inl name => mret (Some ("endpoint not found: " +:+ name))
        | inr newEndpoints =>
            UpdateEndpoints newEndpoints;;
            check Validate;
            check UpdateConfig;
            log INFO ("Endpoints reordered: " +:+ StringsExt.showStrings names);;
            Save
        end
    end.

(** [UpdateConfig]; [parse] is [json.Unmarshal] into a [config.Config].
    The new configuration is validated, handed to the proxy and saved
    before [a.config] is set to it. *)
Definition AppUpdateConfig (parse : string → error + Config)
    (configJSON : string) : M (option error) :=
  match parse configJSON with
  | inl err => mret (Some ("invalid config format: " +:+ err))
  | inr newConfig =>
      match ConfigValidate newConfig with
      | Some err => mret (Some ("invalid config: " +:+ err))
      | None =>
          check (λ w, let '(err, p) := ProxyUpdateConfig newConfig (proxy w) in
                      (err, withProxy p w));
          err ← (λ w, match ConfigSave (configPath w) newConfig with
                      | Some e => (Some e, w)
                      | None =>
                          (None,
                           withDisk (<[configPath w := newConfig]> (disk w)) w)
                      end);
          match err with
          | Some err => mret (Some ("failed to save config: " +:+ err))
          | None => (λ w, (None, withConfig newConfig w))
          end
      end
  end.

Definition withMinLevel (l : option Z) (w : World Proxy) : World Proxy :=
  mkWorld (config w) (proxy w) (configPath w) (disk w) l (logs w) (wire w).

(** [SetLogLevel] *)
Definition SetLogLevel (level : Z) : M unit :=
  (λ w, (tt, withMinLevel (Some level) w));;
  (λ w, (tt, withConfig (setLogLevel level (config w)) w));;
  err ← Save;
  match err with
  | Some err => log WARN ("Failed to save log level to config: " +:+ err)
  | None => log DEBUG ("Log level saved to config: " +:+ Strings.itoa level)
  end.

(** [GetLogLevel] *)
Definition GetLogLevel : M (Proxy := Proxy) Z :=
  λ w, (LogLevel (config w), w).

(** [GetLanguage] *)
Definition GetLanguage (mapLower : string → string) (env : Locale)
  : M (Proxy := Proxy) string :=
  λ w, let lang := Language (config w) in
       (if decide (lang = "") then GetSystemLanguage mapLower env else lang, w).

(** [SetLanguage] *)
Definition SetLanguage (language : string) : M (option error) :=
  (λ w, (tt, withConfig (setLanguage language (config w)) w));;
  err ← Save;
  match err with
  | Some err => mret (Some ("failed to save language: " +:+ err))
  | None =>
      log INFO ("Language changed to: " +:+ language);;
      mret None
  end.

End MoreOperations.

(* ===================================================================== *)
(** ** The HTTP API: the routes of the server, its handlers, and the
       requests of the front end *)
(* ===================================================================== *)

Inductive Verb := GET | POST | PUT | DELETE.

#[export] Instance Verb_eq_dec : EqDecision Verb.
Proof. solve_decision. Defined.

(** The methods of [AppAPI] the handlers call. *)
Inductive Call :=
| CallGetConfig | CallUpdateConfig | CallGetVersion | CallGetStats
| CallAddEndpoint | CallRemoveEndpoint | CallUpdateEndpoint
| CallToggleEndpoint | CallTestEndpoint | CallReorderEndpoints
| CallSwitchToEndpoint | CallGetCurrentEndpoint | CallUpdatePort
| CallGetLogs | CallGetLogsByLevel | CallSetLogLevel | CallGetLogLevel
| CallClearLogs | CallGetLanguage | CallSetLanguage | CallGetSystemLanguage
| CallUpdateWebDAVConfig | CallTestWebDAVConnection | CallListWebDAVBackups
| CallBackupToWebDAV | CallRestoreFromWebDAV.

(** [registerRoutes]: verb, pattern and the method the handler calls, in
    the order of registration. *)
Definition routes : list (Verb * string * Call) :=
  [ (GET, "/api/config", CallGetConfig);
    (POST, "/api/config", CallUpdateConfig);
    (GET, "/api/version", CallGetVersion);
    (GET, "/api/stats", CallGetStats);
    (POST, "/api/endpoints", CallAddEndpoint);
    (DELETE, "/api/endpoints/:index", CallRemoveEndpoint);
    (PUT, "/api/endpoints/:index", CallUpdateEndpoint);
    (POST, "/api/endpoints/:index/toggle", CallToggleEndpoint);
    (POST, "/api/endpoints/test/:index", CallTestEndpoint);
    (POST, "/api/endpoints/reorder", CallReorderEndpoints);
    (POST, "/api/endpoints/switch", CallSwitchToEndpoint);
    (GET, "/api/endpoints/current", CallGetCurrentEndpoint);
    (POST, "/api/port", CallUpdatePort);
    (GET, "/api/logs", CallGetLogs);
    (GET, "/api/logs/level/:level", CallGetLogsByLevel);
    (POST, "/api/logs/level", CallSetLogLevel);
    (GET, "/api/logs/level", CallGetLogLevel);
    (DELETE, "/api/logs", CallClearLogs);
    (GET, "/api/language", CallGetLanguage);
    (POST, "/api/language", CallSetLanguage);
    (GET, "/api/language/system", CallGetSystemLanguage);
    (POST, "/api/webdav/config", CallUpdateWebDAVConfig);
    (POST, "/api/webdav/test", CallTestWebDAVConnection);
    (GET, "/api/webdav/backups", CallListWebDAVBackups);
    (POST, "/api/webdav/backup", CallBackupToWebDAV);
    (POST, "/api/webdav/restore", CallRestoreFromWebDAV) ].

(** The segments of a path between slashes. *)
Fixpoint splitOn (sep : ascii) (s : string) : list string :=
  match s with
  | EmptyString => [EmptyString]
  | String c s' =>
      if Ascii.eqb c sep then EmptyString :: splitOn sep s'
      else match splitOn sep s' with
           | seg :: rest => String c seg :: rest
           | [] => [String c EmptyString]
           end
  end.

(** A segment of a pattern matches itself; a parameter [:name] matches
    any one segment that is not empty. *)
Definition segMatch (pat seg : string) : bool :=
  if Strings.HasPrefix pat ":" then negb (String.eqb seg "")
  else String.eqb pat seg.

Fixpoint pathMatch (pats segs : list string) : bool :=
  match pats, segs with
  | [], [] => true
  | p :: pats', s :: segs' => segMatch p s && pathMatch pats' segs'
  | _, _ => false
  end.

(** The methods whose route matches a request. *)
Definition dispatch (verb : Verb) (path : string) : list Call :=
  (λ r, snd r)
  <$> filter (λ r, fst (fst r) = verb
                   ∧ pathMatch (splitOn "/" (snd (fst r))) (splitOn "/" path)
                     = true)
             routes.

Module Api.

(** The functions of api.js that send a request; an index or a level is a
    number put into the path by a template literal. *)
Inductive ApiCall :=
| getConfig | updateConfig | getVersion | getStats
| addEndpoint | updateEndpoint (index : nat) | removeEndpoint (index : nat)
| toggleEndpoint (index : nat) | testEndpoint (index : nat)
| reorderEndpoints | switchToEndpoint | getCurrentEndpoint | updatePort
| getLogs | getLogsByLevel (level : nat) | setLogLevel | getLogLevel
| clearLogs | getLanguage | setLanguage | getSystemLanguage
| updateWebDAVConfig | testWebDAVConnection | listWebDAVBackups
| backupToWebDAV | restoreFromWebDAV.

(** The text of a non-negative whole number in a template literal. *)
Definition numeral (n : nat) : string := Strings.itoa (Z.of_nat n).

(** api.js: the verb and the endpoint each function passes to
    [apiRequest], which prefixes [API_BASE]. *)
Definition apiRequest (API_BASE : string) (c : ApiCall) : Verb * string :=
  let '(verb, endpoint) :=
    match c with
    | getConfig => (GET, "/config")
    | updateConfig => (POST, "/config")
    | getVersion => (GET, "/version")
    | getStats => (GET, "/stats")
    | addEndpoint => (POST, "/endpoints")
    | updateEndpoint index => (PUT, "/endpoints/" +:+ numeral index)
    | removeEndpoint index => (DELETE, "/endpoints/" +:+ numeral index)
    | toggleEndpoint index =>
        (POST, "/endpoints/" +:+ numeral index +:+ "/toggle")
    | testEndpoint index =>
        (POST, "/endpoints/" +:+ numeral index +:+ "/test")
    | reorderEndpoints => (POST, "/endpoints/reorder")
    | switchToEndpoint => (POST, "/endpoints/switch")
    | getCurrentEndpoint => (GET, "/endpoints/current")
    | updatePort => (POST, "/port")
    | getLogs => (GET, "/logs")
    | getLogsByLevel level => (GET, "/logs/level/" +:+ numeral level)
    | setLogLevel => (POST, "/logs/level")
    | getLogLevel => (GET, "/logs/level")
    | clearLogs => (DELETE, "/logs")
    | getLanguage => (GET, "/language")
    | setLanguage => (POST, "/language")
    | getSystemLanguage => (GET, "/language/system")
    | updateWebDAVConfig => (POST, "/webdav/config")
    | testWebDAVConnection => (POST, "/webdav/test")
    | listWebDAVBackups => (GET, "/webdav/backups")
    | backupToWebDAV => (POST, "/webdav/backup")
    | restoreFromWebDAV => (POST, "/webdav/restore")
    end in
  (verb, API_BASE +:+ endpoint).

(** The method of [App] each function of api.js is written for. *)
Definition target (c : ApiCall) : Call :=
  match c with
  | getConfig => CallGetConfig
  | updateConfig => CallUpdateConfig
  | getVersion => CallGetVersion
  | getStats => CallGetStats
  | addEndpoint => CallAddEndpoint
  | updateEndpoint _ => CallUpdateEndpoint
  | removeEndpoint _ => CallRemoveEndpoint
  | toggleEndpoint _ => CallToggleEndpoint
  | testEndpoint _ => CallTestEndpoint
  | reorderEndpoints => CallReorderEndpoints
  | switchToEndpoint => CallSwitchToEndpoint
  | getCurrentEndpoint => CallGetCurrentEndpoint
  | updatePort => CallUpdatePort
  | getLogs => CallGetLogs
  | getLogsByLevel _ => CallGetLogsByLevel
  | setLogLevel => CallSetLogLevel
  | getLogLevel => CallGetLogLevel
  | clearLogs => CallClearLogs
  | getLanguage => CallGetLanguage
  | setLanguage => CallSetLanguage
  | getSystemLanguage => CallGetSystemLanguage
  | updateWebDAVConfig => CallUpdateWebDAVConfig
  | testWebDAVConnection => CallTestWebDAVConnection
  | listWebDAVBackups => CallListWebDAVBackups
  | backupToWebDAV => CallBackupToWebDAV
  | restoreFromWebDAV => CallRestoreFromWebDAV
  end.

End Api.

(** ** fmt and strconv: reading a number with [Sscanf] *)

Module Fmt.

(** [isSpace] on the runes below U+0080, the newline apart: U+0009 to
    U+000D and U+0020. *)
Definition isSpaceByte (c : ascii) : bool :=
  let n := N_of_ascii c in
  ((9 <=? n) && (n <=? 13) || (n =? 32))%N.

(** [isSpace] on the runes of three bytes, in their UTF-8 form: U+1680,
    U+2000 to U+200A, U+2028, U+2029, U+202F, U+205F and U+3000. *)
Definition isSpace3 (c1 c2 c3 : ascii) : bool :=
  let n3 := N_of_ascii c3 in
  if Ascii.eqb c1 "225" then Ascii.eqb c2 "154" && Ascii.eqb c3 "128"
  else if Ascii.eqb c1 "226" then
    if Ascii.eqb c2 "128"
    then ((128 <=? n3) && (n3 <=? 138) || (n3 =? 168) || (n3 =? 169)
          || (n3 =? 175))%N
    else Ascii.eqb c2 "129" && Ascii.eqb c3 "159"
  else if Ascii.eqb c1 "227" then Ascii.eqb c2 "128" && Ascii.eqb c3 "128"
  else false.

(** [SkipSpace] with [nlIsSpace] off, as [Sscanf] sets it: the text
    after the leading space runes, or [None] for the error "unexpected
    newline". A carriage return is skipped like any space, so a newline
    after it is met in its turn. The space runes of two bytes are U+0085
    and U+00A0. *)
Fixpoint SkipSpace (s : string) : option string :=
  match s with
  | "" => Some ""
  | String c1 s1 =>
      if Ascii.eqb c1 "010" then None
      else if isSpaceByte c1 then SkipSpace s1
      else
        match s1 with
        | "" => Some s
        | String c2 s2 =>
            if Ascii.eqb c1 "194"
               && (Ascii.eqb c2 "133" || Ascii.eqb c2 "160")
            then SkipSpace s2
            else
              match s2 with
              | "" => Some s
              | String c3 s3 =>
                  if isSpace3 c1 c2 c3 then SkipSpace s3 else Some s
              end
        end
  end.

(** [s.accept(sign)]: the sign taken into the token, and the text after
    it. *)
Definition acceptSign (s : string) : string * string :=
  match s with
  | String c rest =>
      if Ascii.eqb c "+" || Ascii.eqb c "-" then (String c "", rest)
      else ("", s)
  | "" => ("", "")
  end.

(** [for s.accept(digits) {}] with the digits of [%d], 0 to 9: the
    digits at the front, and the text after them. *)
Fixpoint acceptDigits (s : string) : string * string :=
  match s with
  | String c rest =>
      if Header.isDigit c
      then let '(tok, rest') := acceptDigits rest in (String c tok, rest')
      else ("", s)
  | "" => ("", "")
  end.

(** The loop of [strconv.ParseUint] in base 10, [n = n*10 + d], with
    its syntax error for a byte that is no digit. *)
Fixpoint parseDigits (n : Z) (s : string) : option Z :=
  match s with
  | "" => Some n
  | String c rest =>
      if Header.isDigit c
      then parseDigits (n * 10 + (Z.of_N (N_of_ascii c) - 48)) rest
      else None
  end.

(** [strconv.ParseInt(tok, 10, 64)]: the sign is picked off, the digits
    are read by [ParseUint], and the value is checked against the cutoff
    2^63. [ParseUint] gives the largest uint64 with a range error for
    digits that pass it, which the cutoff refuses as well, so the value
    is kept exact here. *)
Definition ParseInt (tok : string) : option Z :=
  match tok with
  | "" => None
  | String c rest =>
      let '(neg, digits) :=
        if Ascii.eqb c "+" then (false, rest)
        else if Ascii.eqb c "-" then (true, rest)
        else (false, tok) in
      if decide (digits = "") then None
      else
        un ← parseDigits 0 digits;
        if negb neg && (un >=? 2 ^ 63) then None
        else if neg && (un >? 2 ^ 63) then None
        else Some (if neg then - un else un)
  end.

(** [int64(v)] *)
Definition wrap64 (v : Z) : Z := (v + 2 ^ 63) mod 2 ^ 64 - 2 ^ 63.

(** [scanInt('d', bitSize)]: spaces are skipped, a sign is accepted, at
    least one digit must follow, the token is handed to [ParseInt], and
    the value must survive [(i << (64 - n)) >> (64 - n)]. What follows
    the digits is left unread. *)
Definition scanInt (bitSize : Z) (s : string) : option Z :=
  s ← SkipSpace s;
  if decide (s = "") then None
  else
    let '(sign, s) := acceptSign s in
    let '(digits, _) := acceptDigits s in
    if decide (digits = "") then None
    else
      i ← ParseInt (sign +:+ digits);
      let x := Z.shiftr (wrap64 (Z.shiftl i (64 - bitSize))) (64 - bitSize) in
      if decide (x ≠ i) then None else Some i.

(** [fmt.Sscanf(str, "%d", &index)] for an [int] of [intBits] bits: the
    number stored, or [None] when an error is returned. [doScanf] skips
    the spaces before the verb and [scanInt] does so again. The width
    of 2^30 runes that [doScanf] allows a verb without a width is beyond
    what a request path can hold and is left out. *)
Definition Sscanf (intBits : Z) (str : string) : option Z :=
  s ← SkipSpace str;
  scanInt intBits s.

End Fmt.

(** What a handler answers: the status and the JSON object
    [{"error": ...}] or [{"message": ...}], or the text of a test
    result. *)
Inductive ReplyBody :=
| ErrorBody (msg : string)
| MessageBody (msg : string)
| ResultBody (r : TestResult).

Definition StatusBadRequest : Z := 400.

Section Handlers.

Context {Proxy : Type} {Ext : Externals Proxy}.

(** The size of [int] on the platform the server is built for, 32 or
    64; the handlers read the index with
    [fmt.Sscanf(c.Param("index"), "%d", &index)]. *)
Variable intBits : Z.

(** The handler of [DELETE /api/endpoints/:index]. *)
Definition handleRemoveEndpoint (param : string) : M (Z * ReplyBody) :=
  match Fmt.Sscanf intBits param with
  | None => mret (StatusBadRequest, ErrorBody "invalid index")
  | Some index =>
      err ← RemoveEndpoint index;
      match err with
      | Some e => mret (StatusBadRequest, ErrorBody e)
      | None => mret (StatusOK, MessageBody "success")
      end
  end.

(** The handler of [POST /api/endpoints/test/:index]. *)
Definition handleTestEndpoint (param : string) : M (Z * ReplyBody) :=
  match Fmt.Sscanf intBits param with
  | None => mret (StatusBadRequest, ErrorBody "invalid index")
  | Some index =>
      r ← TestEndpoint index;
      mret (StatusOK, ResultBody r)
  end.

(** The handler of [POST /api/port]; [bound] is what [c.Bind] reads from
    the body, the port or an error. *)
Definition handleUpdatePort (bound : error + Z) : M (Z * ReplyBody) :=
  match bound with
  | inl e => mret (StatusBadRequest, ErrorBody e)
  | inr port =>
      err ← UpdatePort port;
      match err with
      | Some e => mret (StatusBadRequest, ErrorBody e)
      | None => mret (StatusOK, MessageBody "success")
      end
  end.

End Handlers.

(** modal.js, [savePort]: the value of [parseInt], a whole number or not
    a number. *)
Inductive JSInt := NaN | Infinite (negative : bool) | Whole (z : Z).

(** [!port || port < 1 || port > 65535] *)
Definition portRefused (port : JSInt) : bool :=
  match port with
  | NaN => true
  | Infinite _ => true
  | Whole z => (z =? 0) || (z <? 1) || (z >? 65535)
  end.

(** [savePort]: the port handed to [updatePort], if any. *)
Definition savePort (port : JSInt) : option Z :=
  if portRefused port then None
  else match port with
       | Whole z => Some z
       | _ => None
       end.

(** The same collaborators with another [Config.Save]. *)
Definition withSave {Proxy : Type} (s : string → Config → option error)
    (E : Externals Proxy) : Externals Proxy := {|
  ConfigValidate := ConfigValidate;
  ConfigSave := s;
  GetConfigPath := GetConfigPath;
  ConfigLoad := ConfigLoad;
  DefaultConfig := DefaultConfig;
  ProxyNew := ProxyNew;
  ProxyStart := ProxyStart;
  ProxyStop := ProxyStop;
  ProxyUpdateConfig := ProxyUpdateConfig;
  ProxyStatsSave := ProxyStatsSave;
  Listening := Listening;
  ProxyStats := ProxyStats;
  NewRequestErr := NewRequestErr;
  ClientDo := ClientDo;
  Unmarshal := Unmarshal
|}.

(** More concrete collaborators and inputs, to run the operations on. *)
Module Cases.

(** A validation that wants an API key on every endpoint. *)
Definition needsKey (c : Config) : option error :=
  if forallb (λ e, negb (String.eqb (APIKey e) "")) (Endpoints c)
  then None
  else Some "API key is required".

Definition strict : Externals Sample.proxyState :=
  withValidate needsKey Sample.live.

(** The configuration file cannot be written. *)
Definition diskFull : Externals Sample.proxyState :=
  withSave (λ _ _, Some "no space left on device") Sample.live.

(** The configuration file holds port 9000. *)
Definition onPort9000 : Externals Sample.proxyState :=
  Sample.ext (inr (setPort 9000 Sample.cfg3)) None.

(** The configuration file holds log level -1. *)
Definition onLevelMinus1 : Externals Sample.proxyState :=
  Sample.ext (inr (setLogLevel (-1) Sample.cfg3)) None.

(** A parser of configurations that reads [Sample.cfg1] from any text. *)
Definition parse : string → error + Config := λ _, inr Sample.cfg1.

(** No rune-wise lowering is needed for ASCII values. *)
Definition noMap (s : string) : string := s.

End Cases.

(* ===================================================================== *)
(** * Properties *)
(* ===================================================================== *)

(** ** Byte strings *)

Module StringsFacts.

Import Strings.

Lemma app_cons c a b : String c a +:+ b = String c (a +:+ b).
Proof. reflexivity. Qed.

Lemma app_empty_l a : "" +:+ a = a.
Proof. reflexivity. Qed.

Lemma app_empty_r a : a +:+ "" = a.
Proof. induction a as [|c a IH]; [done|]. by rewrite app_cons, IH. Qed.

Lemma app_assoc a b c : (a +:+ b) +:+ c = a +:+ (b +:+ c).
Proof. induction a as [|x a IH]; [done|]. by rewrite !app_cons, IH. Qed.

Lemma length_app a b :
  String.length (a +:+ b) = (String.length a + String.length b)%nat.
Proof. induction a as [|x a IH]; [done|]. rewrite app_cons. simpl. by rewrite IH. Qed.

Lemma take_app a b : take (String.length a) (a +:+ b) = a.
Proof.
  induction a as [|x a IH]; [by destruct b|].
  rewrite app_cons. simpl. by rewrite IH.
Qed.

Lemma drop_app a b : drop (String.length a) (a +:+ b) = b.
Proof. induction a as [|x a IH]; [by destruct b|]. by rewrite app_cons. Qed.

Lemma take_drop n s : take n s +:+ drop n s = s.
Proof.
  revert s; induction n as [|n IH]; intros [|c s]; try done.
  simpl. by rewrite app_cons, IH.
Qed.

Lemma HasPrefix_spec s p : HasPrefix s p = true ↔ ∃ r, s = p +:+ r.
Proof.
  unfold HasPrefix. rewrite andb_true_iff, Nat.leb_le, String.eqb_eq. split.
  - intros [_ Heq]. exists (drop (String.length p) s).
    rewrite <- (take_drop (String.length p) s) at 1. by rewrite Heq.
  - intros [r ->]. rewrite length_app, take_app. split; [lia|done].
Qed.

Lemma HasSuffix_spec s x : HasSuffix s x = true ↔ ∃ r, s = r +:+ x.
Proof.
  unfold HasSuffix. rewrite andb_true_iff, Nat.leb_le, String.eqb_eq. split.
  - intros [_ Heq]. exists (take (String.length s - String.length x) s).
    rewrite <- (take_drop (String.length s - String.length x) s) at 1.
    by rewrite Heq.
  - intros [r ->]. rewrite length_app.
    replace (String.length r + String.length x - String.length x)%nat
      with (String.length r) by lia.
    rewrite drop_app. split; [lia|done].
Qed.

Lemma TrimPrefix_app p r : TrimPrefix (p +:+ r) p = r.
Proof.
  unfold TrimPrefix.
  assert (HasPrefix (p +:+ r) p = true) as -> by (apply HasPrefix_spec; eauto).
  apply drop_app.
Qed.

Lemma TrimPrefix_id s p : HasPrefix s p = false → TrimPrefix s p = s.
Proof. unfold TrimPrefix. by intros ->. Qed.

Lemma TrimSuffix_app r x : TrimSuffix (r +:+ x) x = r.
Proof.
  unfold TrimSuffix.
  assert (HasSuffix (r +:+ x) x = true) as -> by (apply HasSuffix_spec; eauto).
  rewrite length_app.
  replace (String.length r + String.length x - String.length x)%nat
    with (String.length r) by lia.
  apply take_app.
Qed.

Lemma TrimSuffix_id s x : HasSuffix s x = false → TrimSuffix s x = s.
Proof. unfold TrimSuffix. by intros ->. Qed.

(** A string is empty or ends in a last byte. *)
Lemma snoc_cases s : s = "" ∨ ∃ r c, s = r +:+ String c "".
Proof.
  induction s as [|x s [->|(r & c & ->)]]; [by left| |]; right.
  - by exists "", x.
  - by exists (String x r), c.
Qed.

Lemma snoc_inj a b c d :
  a +:+ String c "" = b +:+ String d "" → a = b ∧ c = d.
Proof.
  revert b; induction a as [|x a IH]; intros [|y b] H;
    rewrite ?app_cons, ?app_empty_l in H.
  - by injection H as ->.
  - injection H as -> H. by destruct b.
  - injection H as -> H. by destruct a.
  - injection H as -> H. apply IH in H as [-> ->]. done.
Qed.

(** A prefix of [h/] is a prefix of [h], unless it is [h/] itself. *)
Lemma HasPrefix_slash h p :
  HasPrefix (h +:+ "/") p = true →
  HasPrefix h p = true ∨ p = h +:+ "/".
Proof.
  rewrite !HasPrefix_spec. intros [r Hr].
  destruct (snoc_cases r) as [->|(r' & c & ->)].
  - right. by rewrite app_empty_r in Hr.
  - left. exists r'. rewrite <- app_assoc in Hr.
    by apply snoc_inj in Hr as [-> _].
Qed.

End StringsFacts.

(** ** normalizeAPIUrl *)

Section Normalize.

Import Strings StringsFacts.

Lemma cleanHost_spec h :
  cleanHost h = true ↔
  HasPrefix h "http://" = false ∧ HasPrefix h "https://" = false
  ∧ HasSuffix h "/" = false.
Proof.
  unfold cleanHost, schemeFree, slashFree.
  rewrite !andb_true_iff, !negb_true_iff. tauto.
Qed.

(** A host without a trailing slash keeps no scheme prefix when a slash
    is put after it. *)
Lemma scheme_after_slash h slash p :
  p = "http://" ∨ p = "https://" →
  slash = "" ∨ slash = "/" →
  HasPrefix h p = false → HasSuffix h "/" = false →
  HasPrefix (h +:+ slash) p = false.
Proof.
  intros Hp [->| ->] Hpre Hsuf; [by rewrite app_empty_r|].
  destruct (HasPrefix (h +:+ "/") p) eqn:E; [|done].
  apply HasPrefix_slash in E as [E|E]; [congruence|].
  assert (HasSuffix h "/" = true); [|congruence].
  destruct Hp as [-> | ->].
  - change "http://" with ("http:/" +:+ "/") in E.
    apply snoc_inj in E as [<- _]. reflexivity.
  - change "https://" with ("https:/" +:+ "/") in E.
    apply snoc_inj in E as [<- _]. reflexivity.
Qed.

Lemma http_is_not_https x : HasPrefix ("http://" +:+ x) "https://" = false.
Proof.
  destruct (HasPrefix _ _) eqn:E; [|done].
  apply HasPrefix_spec in E as [r E].
  rewrite !app_cons in E. discriminate E.
Qed.

(** What [normalizeAPIUrl] yields on a host written with at most one
    scheme prefix and at most one trailing slash. *)
Lemma normalizeAPIUrl_clean scheme host slash :
  scheme = "" ∨ scheme = "http://" ∨ scheme = "https://" →
  slash = "" ∨ slash = "/" →
  cleanHost host = true →
  normalizeAPIUrl (scheme +:+ host +:+ slash) = host.
Proof.
  intros Hscheme Hslash (Hhttp & Hhttps & Hsuf)%cleanHost_spec.
  pose proof (scheme_after_slash host slash "http://"
                (or_introl eq_refl) Hslash Hhttp Hsuf) as H1.
  pose proof (scheme_after_slash host slash "https://"
                (or_intror eq_refl) Hslash Hhttps Hsuf) as H2.
  assert (TrimSuffix (host +:+ slash) "/" = host) as Hend.
  { destruct Hslash as [-> | ->]; [|apply TrimSuffix_app].
    rewrite app_empty_r. by apply TrimSuffix_id. }
  unfold normalizeAPIUrl.
  destruct Hscheme as [-> | [-> | ->]].
  - rewrite app_empty_l.
    rewrite (TrimPrefix_id _ "https://") by exact H2.
    rewrite (TrimPrefix_id _ "http://") by exact H1.
    exact Hend.
  - rewrite (TrimPrefix_id _ "https://") by apply http_is_not_https.
    rewrite TrimPrefix_app. exact Hend.
  - rewrite TrimPrefix_app.
    rewrite (TrimPrefix_id _ "http://") by exact H1.
    exact Hend.
Qed.

End Normalize.

(** ** The endpoint and port operations *)

#[local] Arguments normalizeAPIUrl : simpl never.
#[local] Arguments Strings.itoa : simpl never.
#[local] Arguments orClaude : simpl never.

(** Unfold a method down to the calls of the collaborators. *)
Ltac unfold_method :=
  unfold orReturn, GetEndpoints, UpdateEndpoints, ConfigUpdatePort, Validate,
    UpdateConfig, Save, Do, log, mbind, M_bind, mret, M_ret;
  simpl.

(** Case on the outcome of the next call that the result depends on. *)
Ltac next_outcome :=
  match goal with
  | |- context [ConfigValidate ?c] => destruct (ConfigValidate c) eqn:?
  | |- context [ProxyUpdateConfig ?c ?p] =>
      destruct (ProxyUpdateConfig c p) as [[?|] ?] eqn:?
  | |- context [ConfigSave ?p ?c] => destruct (ConfigSave p c) eqn:?
  | |- context [decide ?P] => destruct (decide P)
  | |- context [if ?b then _ else _] => destruct b eqn:?
  end; simpl.

Section OperationFacts.

Context {Proxy : Type} {Ext : Externals Proxy}.
Implicit Types (w : World Proxy) (index port : Z).

Lemma badIndex_true index (l : list Endpoint) :
  badIndex index l = true ↔ index < 0 ∨ Z.of_nat (length l) ≤ index.
Proof. unfold badIndex. rewrite orb_true_iff, Z.ltb_lt, Z.geb_le. lia. Qed.

Lemma badIndex_false index (l : list Endpoint) :
  badIndex index l = false ↔ 0 ≤ index < Z.of_nat (length l).
Proof.
  unfold badIndex. rewrite orb_false_iff, Z.ltb_ge.
  destruct (Z.geb_spec index (Z.of_nat (length l))); intuition (try lia; done).
Qed.

(** The endpoint list after [AddEndpoint], whatever it returns. *)
Lemma AddEndpoint_endpoints w name apiUrl apiKey transformer model remark :
  Endpoints (config (snd (AddEndpoint name apiUrl apiKey transformer model remark w)))
  = Endpoints (config w)
    ++ [mkEndpoint name (normalizeAPIUrl apiUrl) apiKey true
                   (orClaude transformer) model remark].
Proof. unfold AddEndpoint. unfold_method. repeat next_outcome; done. Qed.

(** The endpoint list after [UpdateEndpoint] at an index within range,
    whatever it returns. *)
Lemma UpdateEndpoint_endpoints w index name apiUrl apiKey transformer model remark :
  badIndex index (Endpoints (config w)) = false →
  Endpoints (config (snd (UpdateEndpoint index name apiUrl apiKey transformer
                                         model remark w)))
  = <[Z.to_nat index :=
        mkEndpoint name (normalizeAPIUrl apiUrl) apiKey
                   (Enabled (Endpoints (config w) !!! Z.to_nat index))
                   (orClaude transformer) model remark]> (Endpoints (config w)).
Proof.
  intros Hok. unfold UpdateEndpoint. unfold_method. rewrite Hok.
  repeat next_outcome; done.
Qed.

(** C10. For every index [i] with [i < 0] or [i >= len(endpoints)],
    RemoveEndpoint, UpdateEndpoint and ToggleEndpoint return the
    "invalid endpoint index" error and TestEndpoint returns a failure
    result; each leaves the whole state, and so the endpoint list, as it
    was. *)
Theorem invalid_index_rejected w index
    name apiUrl apiKey transformer model remark enabled :
  index < 0 ∨ Z.of_nat (length (Endpoints (config w))) ≤ index →
  RemoveEndpoint index w
    = (Some ("invalid endpoint index: " +:+ Strings.itoa index), w)
  ∧ UpdateEndpoint index name apiUrl apiKey transformer model remark w
    = (Some ("invalid endpoint index: " +:+ Strings.itoa index), w)
  ∧ ToggleEndpoint index enabled w
    = (Some ("invalid endpoint index: " +:+ Strings.itoa index), w)
  ∧ TestEndpoint index w
    = (mkResult false ("Invalid endpoint index: " +:+ Strings.itoa index), w).
Proof.
  intros Hbad%badIndex_true.
  unfold RemoveEndpoint, UpdateEndpoint, ToggleEndpoint, TestEndpoint.
  unfold_method. rewrite Hbad. done.
Qed.

(** C9. For every valid index, UpdateEndpoint puts at that index the
    endpoint made of the supplied name, host (the supplied URL,
    normalised), credential, transformer kind (an empty one becoming
    "claude"), model and remark, with the enabled flag the endpoint had
    before; the other endpoints stay as they were. *)
Theorem UpdateEndpoint_keeps_enabled w index old
    name apiUrl apiKey transformer model remark :
  0 ≤ index →
  Endpoints (config w) !! Z.to_nat index = Some old →
  let eps := Endpoints (config w) in
  let eps' := Endpoints (config (snd (UpdateEndpoint index name apiUrl apiKey
                                        transformer model remark w))) in
  eps' !! Z.to_nat index
    = Some (mkEndpoint name (normalizeAPIUrl apiUrl) apiKey (Enabled old)
              (if decide (transformer = "") then "claude" else transformer)
              model remark)
  ∧ length eps' = length eps
  ∧ ∀ j, j ≠ Z.to_nat index → eps' !! j = eps !! j.
Proof.
  intros Hpos Hold eps eps'.
  assert (Z.to_nat index < length eps)%nat as Hlt by by eapply lookup_lt_Some.
  assert (badIndex index eps = false) as Hok by (apply badIndex_false; lia).
  subst eps'. rewrite UpdateEndpoint_endpoints by done. fold eps.
  rewrite (list_lookup_total_correct _ _ _ Hold).
  split_and!.
  - by rewrite list_lookup_insert_eq.
  - by rewrite length_insert.
  - intros j Hj. by rewrite list_lookup_insert_ne.
Qed.

(** C6. Removing the last remaining endpoint succeeds: the validation of
    the configuration is not consulted for the empty list (the outcome is
    the same under every validation function), so once the proxy takes the
    new configuration and the file is written RemoveEndpoint returns no
    error and the list is empty. *)
Theorem RemoveEndpoint_last_succeeds w e px :
  Endpoints (config w) = [e] →
  ProxyUpdateConfig (setEndpoints [] (config w)) (proxy w) = (None, px) →
  ConfigSave (configPath w) (setEndpoints [] (config w)) = None →
  (∃ w', RemoveEndpoint 0 w = (None, w')
         ∧ Endpoints (config w') = []
         ∧ proxy w' = px
         ∧ disk w' !! configPath w' = Some (config w'))
  ∧ ∀ v, RemoveEndpoint (Ext := withValidate v Ext) 0 w = RemoveEndpoint 0 w.
Proof.
  intros Hone Hproxy Hsave. split.
  - unfold RemoveEndpoint. unfold_method. rewrite Hone. simpl.
    rewrite Hproxy. simpl. rewrite Hsave.
    eexists. split; [done|]. simpl. split_and!; try done.
    by rewrite lookup_insert_eq.
  - intros v. unfold RemoveEndpoint. unfold_method. by rewrite Hone.
Qed.

(** An invalid port is refused and nothing changes. *)
Lemma UpdatePort_rejects w port :
  port < 1 ∨ 65535 < port →
  UpdatePort port w = (Some ("invalid port: " +:+ Strings.itoa port), w).
Proof.
  intros Hport. unfold UpdatePort. unfold_method.
  assert ((port <? 1) || (port >? 65535) = true) as ->; [|done].
  rewrite Z.gtb_ltb, orb_true_iff, !Z.ltb_lt. lia.
Qed.

(** C1, as the code has it. A valid port (1 to 65535) given to UpdatePort
    is stored in the configuration, which is then saved; the proxy, and
    with it the port its listener is bound to, is left as it was. *)
Theorem UpdatePort_stores_port_only w port :
  1 ≤ port ≤ 65535 →
  let '(err, w') := UpdatePort port w in
  Port (config w') = port
  ∧ Endpoints (config w') = Endpoints (config w)
  ∧ proxy w' = proxy w
  ∧ Listening (proxy w') = Listening (proxy w)
  ∧ err = ConfigSave (configPath w) (setPort port (config w))
  ∧ (err = None → disk w' !! configPath w' = Some (config w')).
Proof.
  intros Hport. unfold UpdatePort. unfold_method.
  assert ((port <? 1) || (port >? 65535) = false) as ->
    by (rewrite Z.gtb_ltb, orb_false_iff, !Z.ltb_ge; lia).
  destruct (ConfigSave _ _) eqn:Hsave; simpl; split_and!; try done.
  intros _. by rewrite lookup_insert_eq.
Qed.

(** C2, as the code has it. The host stored by AddEndpoint and by
    UpdateEndpoint is [normalizeAPIUrl] of the given URL: one leading
    [https://], then one leading [http://], then one trailing [/] are
    removed where present. For a host that has neither a scheme prefix
    nor a trailing slash, written with at most one scheme prefix before
    it and at most one slash after it, the stored host is that host. *)
Theorem stored_host_is_normalized w name apiUrl apiKey transformer model remark :
  (∃ e, Endpoints (config (snd (AddEndpoint name apiUrl apiKey transformer
                                  model remark w)))
          = Endpoints (config w) ++ [e]
        ∧ APIUrl e = normalizeAPIUrl apiUrl)
  ∧ (∀ index, badIndex index (Endpoints (config w)) = false →
       ∃ e, Endpoints (config (snd (UpdateEndpoint index name apiUrl apiKey
                                      transformer model remark w)))
              !! Z.to_nat index = Some e
            ∧ APIUrl e = normalizeAPIUrl apiUrl)
  ∧ normalizeAPIUrl apiUrl
    = Strings.TrimSuffix
        (Strings.TrimPrefix (Strings.TrimPrefix apiUrl "https://") "http://")
        "/"
  ∧ (∀ scheme host slash,
       scheme = "" ∨ scheme = "http://" ∨ scheme = "https://" →
       slash = "" ∨ slash = "/" →
       cleanHost host = true →
       apiUrl = scheme +:+ host +:+ slash →
       normalizeAPIUrl apiUrl = host).
Proof.
  split_and!.
  - eexists. split; [apply AddEndpoint_endpoints|done].
  - intros index Hok. rewrite UpdateEndpoint_endpoints by done.
    apply badIndex_false in Hok.
    eexists. split; [apply list_lookup_insert_eq; lia|done].
  - done.
  - intros scheme host slash Hscheme Hslash Hclean ->.
    by apply normalizeAPIUrl_clean.
Qed.

End OperationFacts.

(** ** The connection test *)

Section ProbeFacts.

Context {Proxy : Type} {Ext : Externals Proxy}.
Implicit Types (w : World Proxy) (index : Z).

(** Case on every outcome the probe depends on. *)
Ltac probe_cases :=
  repeat match goal with
    | |- context [ClientDo ?c ?r] => destruct (ClientDo c r) as [?|?] eqn:?
    | |- context [ReadAll ?r] => destruct (ReadAll r) as [?|?] eqn:?
    | |- context [Unmarshal ?b] => destruct (Unmarshal b) eqn:?
    | |- context [decide (StatusCode ?r ≠ StatusOK)] =>
        destruct (decide (StatusCode r ≠ StatusOK))
    | |- context [testRequest ?e] => destruct (testRequest e) as [?|?] eqn:?
    | |- context [badIndex ?i ?l] => destruct (badIndex i l) eqn:?
    end; simpl.

(** The canonical forms of the header names app.go sets. *)
Lemma canonical_keys :
  Header.CanonicalMIMEHeaderKey "Content-Type" = "Content-Type"
  ∧ Header.CanonicalMIMEHeaderKey "x-api-key" = "X-Api-Key"
  ∧ Header.CanonicalMIMEHeaderKey "anthropic-version" = "Anthropic-Version"
  ∧ Header.CanonicalMIMEHeaderKey "Authorization" = "Authorization".
Proof. by vm_compute. Qed.

(** A probe is built exactly for the three kinds, when the URL is
    accepted. *)
Lemma testRequest_built endpoint req :
  testRequest endpoint = inr req →
  ∃ apiPath body,
    testPayload (orClaude (Transformer endpoint)) endpoint = Some (apiPath, body)
    ∧ req = setAuth (orClaude (Transformer endpoint)) endpoint
              (setHeader "Content-Type" "application/json"
                 (mkRequest "POST" ("https://" +:+ APIUrl endpoint +:+ apiPath)
                            [] ∅ body)).
Proof.
  unfold testRequest.
  destruct (testPayload _ _) as [[apiPath body]|]; [|done].
  destruct (NewRequestErr _); [done|].
  intros [= <-]. eauto.
Qed.

(** For each of the three kinds a probe is built once the URL is
    accepted. *)
Lemma testRequest_total endpoint :
  let kind := orClaude (Transformer endpoint) in
  kind = "claude" ∨ kind = "openai" ∨ kind = "gemini" →
  (∀ url, NewRequestErr url = None) →
  ∃ req, testRequest endpoint = inr req.
Proof.
  intros kind Hkind Hurl. unfold testRequest. fold kind.
  assert (∃ pb, testPayload kind endpoint = Some pb) as [[apiPath body] ->].
  { unfold testPayload. destruct Hkind as [-> | [-> | ->]]; simpl; eauto. }
  rewrite Hurl. eauto.
Qed.

(** What [TestEndpoint] sends for an endpoint within range. *)
Lemma TestEndpoint_wire w index endpoint :
  0 ≤ index →
  Endpoints (config w) !! Z.to_nat index = Some endpoint →
  wire (snd (TestEndpoint index w))
  = wire w ++ match testRequest endpoint with
              | inl _ => []
              | inr req => [(testClient, req)]
              end.
Proof.
  intros Hpos Hlook.
  assert (badIndex index (Endpoints (config w)) = false) as Hok.
  { apply badIndex_false. apply lookup_lt_Some in Hlook. lia. }
  unfold TestEndpoint, sendProbe. unfold_method. rewrite Hok.
  rewrite (list_lookup_total_correct _ _ _ Hlook).
  probe_cases; by rewrite ?app_nil_r.
Qed.

(** C8. For an endpoint within range TestEndpoint sends the request it
    builds, once, through the client it makes itself, whose timeout is 30
    seconds, and nothing else goes out; when no request can be built, or
    the index is out of range, nothing is sent. It does not look at the
    proxy and leaves it, and the statistics it holds, exactly as they
    were, whatever the outcome of the test. *)
Theorem TestEndpoint_leaves_statistics w index :
  let '(r, w') := TestEndpoint index w in
  proxy w' = proxy w
  ∧ ProxyStats (proxy w') = ProxyStats (proxy w)
  ∧ config w' = config w
  ∧ (∀ endpoint req,
       0 ≤ index →
       Endpoints (config w) !! Z.to_nat index = Some endpoint →
       testRequest endpoint = inr req →
       wire w' = wire w ++ [(testClient, req)])
  ∧ (wire w' = wire w ∨ ∃ req, wire w' = wire w ++ [(testClient, req)])
  ∧ Timeout testClient = 30 * Second
  ∧ ∀ px, TestEndpoint index (withProxy px w) = (r, withProxy px w').
Proof.
  assert (∀ endpoint req,
            0 ≤ index →
            Endpoints (config w) !! Z.to_nat index = Some endpoint →
            testRequest endpoint = inr req →
            wire (snd (TestEndpoint index w)) = wire w ++ [(testClient, req)])
    as Hsent.
  { intros endpoint req Hpos Hlook Hreq.
    by rewrite (TestEndpoint_wire w index endpoint Hpos Hlook), Hreq. }
  revert Hsent. unfold TestEndpoint, sendProbe. unfold_method.
  probe_cases; intros Hsent; split_and!; eauto.
Qed.

(** C3. The request TestEndpoint builds for an upstream carries the
    credential where the upstream's kind puts it: for claude, header
    x-api-key holds the credential and anthropic-version is set; for
    openai, header Authorization holds "Bearer " and the credential; for
    gemini, the credential is the query parameter key and the only header
    is Content-Type. That request is the one sent. *)
Theorem probe_credential_placement w index endpoint req :
  0 ≤ index →
  Endpoints (config w) !! Z.to_nat index = Some endpoint →
  testRequest endpoint = inr req →
  wire (snd (TestEndpoint index w)) = wire w ++ [(testClient, req)]
  ∧ let kind := orClaude (Transformer endpoint) in
    (kind = "claude"
     ∧ Header.Get "x-api-key" (Headers req) = Some (APIKey endpoint)
     ∧ Header.Get "anthropic-version" (Headers req) = Some "2023-06-01"
     ∧ AddedQuery req = [])
    ∨ (kind = "openai"
       ∧ Header.Get "Authorization" (Headers req)
         = Some ("Bearer " +:+ APIKey endpoint)
       ∧ AddedQuery req = [])
    ∨ (kind = "gemini"
       ∧ AddedQuery req = [("key", APIKey endpoint)]
       ∧ Header.Get "x-api-key" (Headers req) = None
       ∧ Header.Get "Authorization" (Headers req) = None
       ∧ Headers req = {[ "Content-Type" := "application/json" ]}).
Proof.
  intros Hpos Hlook Hreq. split.
  { by rewrite (TestEndpoint_wire _ _ _ Hpos Hlook), Hreq. }
  apply testRequest_built in Hreq as (apiPath & body & Hpay & ->).
  destruct canonical_keys as (Kct & Kx & Kav & Kauth).
  intros kind. subst kind. revert Hpay.
  generalize (orClaude (Transformer endpoint)). intros kind.
  unfold testPayload, setAuth, setHeader, addQuery, Header.Get, Header.Set_.
  rewrite Kct, Kx, Kav, Kauth.
  destruct (decide (kind = "claude")) as [->|?];
    [|destruct (decide (kind = "openai")) as [->|?];
      [|destruct (decide (kind = "gemini")) as [->|?]]];
    simpl; intros Hpay; [| | |done].
  - left. by split_and!.
  - right; left. by split_and!.
  - right; right. by split_and!.
Qed.

(** C4. The URL of the request TestEndpoint builds for an upstream is
    "https://", the upstream's host and the path of its kind:
    /v1/messages for claude, /v1/chat/completions for openai, and
    /v1beta/models/{model}:generateContent for gemini, the model being the
    upstream's (gemini-pro when it has none). That request is the one
    sent. *)
Theorem probe_url_by_kind w index endpoint req :
  0 ≤ index →
  Endpoints (config w) !! Z.to_nat index = Some endpoint →
  testRequest endpoint = inr req →
  wire (snd (TestEndpoint index w)) = wire w ++ [(testClient, req)]
  ∧ Method req = "POST"
  ∧ let kind := orClaude (Transformer endpoint) in
    ∃ path,
      URL req = "https://" +:+ APIUrl endpoint +:+ path
      ∧ ((kind = "claude" ∧ path = "/v1/messages")
         ∨ (kind = "openai" ∧ path = "/v1/chat/completions")
         ∨ (kind = "gemini"
            ∧ path = "/v1beta/models/"
                     +:+ (if decide (Model endpoint = "") then "gemini-pro"
                          else Model endpoint)
                     +:+ ":generateContent")).
Proof.
  intros Hpos Hlook Hreq. split.
  { by rewrite (TestEndpoint_wire _ _ _ Hpos Hlook), Hreq. }
  apply testRequest_built in Hreq as (apiPath & body & Hpay & ->).
  assert (∀ k r, Method (setAuth k endpoint r) = Method r
                 ∧ URL (setAuth k endpoint r) = URL r) as Hauth.
  { intros k r. unfold setAuth. by repeat case_decide. }
  destruct (Hauth (orClaude (Transformer endpoint))
              (setHeader "Content-Type" "application/json"
                 (mkRequest "POST" ("https://" +:+ APIUrl endpoint +:+ apiPath)
                    [] ∅ body))) as [-> Hurl].
  split; [done|]. intros kind. subst kind. exists apiPath.
  split; [by rewrite Hurl|].
  revert Hpay. generalize (orClaude (Transformer endpoint)). intros kind.
  unfold testPayload.
  destruct (decide (kind = "claude")) as [->|?];
    [|destruct (decide (kind = "openai")) as [->|?];
      [|destruct (decide (kind = "gemini")) as [->|?]]];
    intros [= <- _] || intros [=]; eauto.
Qed.

End ProbeFacts.

(** ** The exit status of the process *)

Section MainFacts.

Context {Proxy : Type} {Ext : Externals Proxy}.

(** [Startup] has no failing path. *)
Lemma Startup_returns_nil (p : Process) : fst (Startup p) = None.
Proof. unfold Startup. by repeat case_match. Qed.

(** C5, as the code has it. The exit status is fixed by three things
    only: what flag.Parse makes of the command line (status 2 when it
    refuses it, 0 when it prints the help), whether the embedded static
    files can be set up (status 1 when they cannot), and whether the
    shutdown of the HTTP server returns (status 0) or panics (status 2).
    Start-up never fails (a configuration that cannot be loaded is
    replaced by the default one), the error of a listener is only logged
    and a SIGINT that ends the wait is handled like SIGTERM: none of
    them has a part in the status. *)
Theorem main_exit_status (p : Process) :
  fst (Startup p) = None
  ∧ fst (main p)
    = match flagParse p with
      | FlagsRefused => 2
      | FlagsHelp => 0
      | FlagsParsed =>
          match setupStaticFiles p with
          | Some _ => 1
          | None =>
              match serverShutdown p with
              | Panics => 2
              | Returns _ => 0
              end
          end
      end.
Proof.
  split; [apply Startup_returns_nil|].
  pose proof (Startup_returns_nil p) as Hnil.
  unfold main. destruct (Startup p) as [err w]. simpl in Hnil. subst err.
  destruct (flagParse p); simpl; [|done..].
  destruct (setupStaticFiles p); simpl; [done|].
  by destruct (serverShutdown p).
Qed.

End MainFacts.

(** ** The statistics store *)

Module StatsFacts.

Import Stats.

Lemma entry_insert name name' st (s : Store) :
  entry name' (<[name := st]> s)
  = if decide (name = name') then st else entry name' s.
Proof.
  unfold entry. case_decide as Hn.
  - subst. by rewrite lookup_insert_eq.
  - by rewrite lookup_insert_ne.
Qed.

Lemma pending_insert name name' n (m : gmap string N) :
  default 0%N (<[name := n]> m !! name')
  = if decide (name = name') then n else default 0%N (m !! name').
Proof.
  case_decide as Hn.
  - subst. by rewrite lookup_insert_eq.
  - by rewrite lookup_insert_ne.
Qed.

Lemma accounted_init : accounted init.
Proof. intros name. unfold pending, entry. simpl. by rewrite !lookup_empty. Qed.

Lemma accounted_apply ev e e' :
  accounted e → apply ev e = Some e' → accounted e'.
Proof.
  intros Hacc Hev name. specialize (Hacc name).
  destruct e as [s m sv].
  destruct ev as [n now|n|n tin tout|n| |]; simpl in Hev; unfold finish in Hev;
    try (destruct (N.ltb_spec 0 (pending n (mkEngine s m sv))) as [Hpos|];
         [|done]);
    injection Hev as <-; unfold pending in *; simpl in *.
  - unfold RecordAttempt. rewrite entry_insert, pending_insert.
    case_decide; subst; simpl; lia.
  - unfold RecordError. rewrite entry_insert, pending_insert.
    case_decide; subst; simpl; lia.
  - unfold RecordTokens. rewrite entry_insert, pending_insert.
    case_decide; subst; simpl; lia.
  - rewrite pending_insert. case_decide; subst; simpl; lia.
  - lia.
  - rewrite lookup_empty. simpl. lia.
Qed.

Lemma accounted_run evs e e' :
  accounted e → run evs e = Some e' → accounted e'.
Proof.
  revert e. induction evs as [|ev evs IH]; intros e Hacc Hrun; simpl in Hrun.
  - by injection Hrun as <-.
  - destruct (apply ev e) as [e1|] eqn:Hev; [|done].
    eapply IH; [|done]. by eapply accounted_apply.
Qed.

(** C7. In every state the engine can bring the statistics store to, and
    for every upstream name, the error counter is at most the request
    counter, so requests minus errors is not negative. *)
Theorem errors_le_requests (s : Store) (name : string) :
  reachable s →
  (errors (entry name s) ≤ requests (entry name s))%N
  ∧ 0 ≤ successes (entry name s).
Proof.
  intros (evs & e & Hrun & <-).
  pose proof (accounted_run _ _ _ accounted_init Hrun name) as [Hacc _].
  unfold successes. lia.
Qed.

End StatsFacts.

(* ===================================================================== *)
(** * The properties at concrete inputs *)
(* ===================================================================== *)

Section Instances.

Import Sample.
#[local] Existing Instance live.

Lemma invalid_index_rejected_at_7 :
  let w := started cfg3 in
  (7 < 0 ∨ Z.of_nat (length (Endpoints (config w))) ≤ 7)
  ∧ RemoveEndpoint 7 w = (Some "invalid endpoint index: 7", w)
  ∧ UpdateEndpoint 7 "n" "https://h/" "k" "" "" "" w
    = (Some "invalid endpoint index: 7", w)
  ∧ ToggleEndpoint 7 false w = (Some "invalid endpoint index: 7", w)
  ∧ TestEndpoint 7 w = (mkResult false "Invalid endpoint index: 7", w).
Proof.
  intros w.
  assert (7 < 0 ∨ Z.of_nat (length (Endpoints (config w))) ≤ 7) as H
    by (right; simpl; lia).
  split; [exact H|].
  exact (invalid_index_rejected w 7 "n" "https://h/" "k" "" "" "" false H).
Defined.

Lemma UpdateEndpoint_keeps_enabled_at_1 :
  let w := started cfg3 in
  let eps' := Endpoints (config (snd (UpdateEndpoint 1 "azure" "https://az.example.com/"
                                        "key-9" "" "gpt-4o-mini" "eu" w))) in
  0 ≤ 1
  ∧ Endpoints (config w) !! Z.to_nat 1 = Some openai
  ∧ eps' !! Z.to_nat 1
    = Some (mkEndpoint "azure" "az.example.com" "key-9" false "claude"
                       "gpt-4o-mini" "eu")
  ∧ length eps' = length (Endpoints (config w))
  ∧ ∀ j, j ≠ Z.to_nat 1 → eps' !! j = Endpoints (config w) !! j.
Proof.
  intros w eps'.
  assert (0 ≤ 1) as H0 by lia.
  assert (Endpoints (config w) !! Z.to_nat 1 = Some openai) as H1 by reflexivity.
  split; [exact H0|]. split; [exact H1|].
  exact (UpdateEndpoint_keeps_enabled w 1 openai "azure"
           "https://az.example.com/" "key-9" "" "gpt-4o-mini" "eu" H0 H1).
Defined.

Lemma RemoveEndpoint_last_succeeds_at_sample :
  let w := started cfg1 in
  let px := mkProxy (Some 3000) [] ∅ in
  ConfigValidate (setEndpoints [] (config w)) = Some "no endpoints configured"
  ∧ Endpoints (config w) = [anthropic]
  ∧ ProxyUpdateConfig (setEndpoints [] (config w)) (proxy w) = (None, px)
  ∧ ConfigSave (configPath w) (setEndpoints [] (config w)) = None
  ∧ (∃ w', RemoveEndpoint 0 w = (None, w')
           ∧ Endpoints (config w') = []
           ∧ proxy w' = px
           ∧ disk w' !! configPath w' = Some (config w'))
  ∧ ∀ v, RemoveEndpoint (Ext := withValidate v live) 0 w = RemoveEndpoint 0 w.
Proof.
  intros w px.
  assert (Endpoints (config w) = [anthropic]) as H1 by reflexivity.
  assert (ProxyUpdateConfig (setEndpoints [] (config w)) (proxy w) = (None, px))
    as H2 by reflexivity.
  assert (ConfigSave (configPath w) (setEndpoints [] (config w)) = None)
    as H3 by reflexivity.
  split; [reflexivity|]. split; [exact H1|]. split; [exact H2|].
  split; [exact H3|].
  exact (RemoveEndpoint_last_succeeds w anthropic px H1 H2 H3).
Defined.

Lemma UpdatePort_stores_port_only_at_9000 :
  let w := started cfg3 in
  1 ≤ 9000 ≤ 65535
  ∧ let '(err, w') := UpdatePort 9000 w in
    Port (config w') = 9000
    ∧ Endpoints (config w') = Endpoints (config w)
    ∧ proxy w' = proxy w
    ∧ Listening (proxy w') = Listening (proxy w)
    ∧ err = ConfigSave (configPath w) (setPort 9000 (config w))
    ∧ (err = None → disk w' !! configPath w' = Some (config w')).
Proof.
  intros w.
  assert (1 ≤ 9000 ≤ 65535) as H by lia.
  split; [exact H|].
  exact (UpdatePort_stores_port_only w 9000 H).
Defined.

(** The claim of C1 fails here: the port is valid and UpdatePort succeeds,
    the configuration holds the new port, and the listener is still bound
    to the old one. *)
Lemma UpdatePort_leaves_listener_on_old_port :
  let w := started cfg3 in
  let '(err, w') := UpdatePort 9000 w in
  1 ≤ 9000 ≤ 65535
  ∧ err = None
  ∧ Port (config w') = 9000
  ∧ Listening (proxy w) = Some 3000
  ∧ Listening (proxy w') = Some 3000
  ∧ Listening (proxy w') ≠ Some 9000.
Proof. vm_compute. split_and!; try done. Qed.

Lemma stored_host_is_normalized_at_sample :
  let w := started cfg3 in
  let apiUrl := "https://api.example.com/" in
  (("https://" = "" ∨ "https://" = "http://" ∨ "https://" = "https://")
   ∧ ("/" = "" ∨ "/" = "/")
   ∧ cleanHost "api.example.com" = true
   ∧ apiUrl = "https://" +:+ "api.example.com" +:+ "/")
  ∧ normalizeAPIUrl apiUrl = "api.example.com"
  ∧ ∃ e, Endpoints (config (snd (AddEndpoint "ex" apiUrl "k" "" "" "" w)))
         = Endpoints (config w) ++ [e]
         ∧ APIUrl e = normalizeAPIUrl apiUrl.
Proof.
  intros w apiUrl.
  assert ("https://" = "" ∨ "https://" = "http://" ∨ "https://" = "https://")
    as H1 by (right; right; reflexivity).
  assert ("/" = "" ∨ "/" = "/") as H2 by (right; reflexivity).
  assert (cleanHost "api.example.com" = true) as H3 by reflexivity.
  assert (apiUrl = "https://" +:+ "api.example.com" +:+ "/") as H4 by reflexivity.
  pose proof (stored_host_is_normalized w "ex" apiUrl "k" "" "" "")
    as (Hadd & _ & _ & Hclean).
  split; [by split_and!|].
  split; [exact (Hclean "https://" "api.example.com" "/" H1 H2 H3 H4)|].
  exact Hadd.
Defined.

(** The claim of C2 fails here: a second scheme prefix stays, and so does
    a second trailing slash, in what AddEndpoint stores. *)
Lemma stored_host_keeps_second_prefix_and_slash :
  let w := started cfg3 in
  normalizeAPIUrl "http://https://api.example.com" = "https://api.example.com"
  ∧ Strings.HasPrefix (normalizeAPIUrl "http://https://api.example.com")
                      "https://" = true
  ∧ normalizeAPIUrl "api.example.com//" = "api.example.com/"
  ∧ Strings.HasSuffix (normalizeAPIUrl "api.example.com//") "/" = true
  ∧ APIUrl <$> last (Endpoints (config (snd (AddEndpoint
                       "ex" "api.example.com//" "k" "" "" "" w))))
    = Some "api.example.com/"
  ∧ APIUrl <$> (Endpoints (config (snd (UpdateEndpoint
                  0 "ex" "http://https://api.example.com" "k" "" "" "" w)))
                !! 0%nat)
    = Some "https://api.example.com".
Proof. vm_compute. by split_and!. Qed.

Lemma TestEndpoint_leaves_statistics_at_0 :
  let w := started cfg3 in
  let '(r, w') := TestEndpoint 0 w in
  (∃ req, testRequest anthropic = inr req
          ∧ wire w = []
          ∧ wire w' = [(testClient, req)]
          ∧ URL req = "https://api.anthropic.com/v1/messages")
  ∧ success r = true
  ∧ proxy w' = proxy w
  ∧ ProxyStats (proxy w') = ProxyStats (proxy w).
Proof.
  intros w.
  pose proof (TestEndpoint_leaves_statistics w 0) as H.
  destruct (TestEndpoint 0 w) as [r w'] eqn:Htest.
  destruct H as (Hproxy & Hstats & _ & Hsent & _).
  split_and!; [|by injection Htest as <- _|exact Hproxy|exact Hstats].
  destruct (testRequest anthropic) as [failure|req] eqn:Hreq;
    [discriminate Hreq|].
  exists req. split; [done|]. split; [reflexivity|].
  split; [exact (Hsent anthropic req ltac:(lia) eq_refl Hreq)|].
  by injection Hreq as <-.
Defined.

Lemma probe_credential_placement_at_claude :
  let w := started cfg3 in
  let req := match testRequest anthropic with
             | inr r => r
             | inl _ => mkRequest "" "" [] ∅ JNull
             end in
  (0 ≤ 0
   ∧ Endpoints (config w) !! Z.to_nat 0 = Some anthropic
   ∧ testRequest anthropic = inr req)
  ∧ wire (snd (TestEndpoint 0 w)) = wire w ++ [(testClient, req)]
  ∧ let kind := orClaude (Transformer anthropic) in
    (kind = "claude"
     ∧ Header.Get "x-api-key" (Headers req) = Some (APIKey anthropic)
     ∧ Header.Get "anthropic-version" (Headers req) = Some "2023-06-01"
     ∧ AddedQuery req = [])
    ∨ (kind = "openai"
       ∧ Header.Get "Authorization" (Headers req)
         = Some ("Bearer " +:+ APIKey anthropic)
       ∧ AddedQuery req = [])
    ∨ (kind = "gemini"
       ∧ AddedQuery req = [("key", APIKey anthropic)]
       ∧ Header.Get "x-api-key" (Headers req) = None
       ∧ Header.Get "Authorization" (Headers req) = None
       ∧ Headers req = {[ "Content-Type" := "application/json" ]}).
Proof.
  intros w req.
  assert (0 ≤ 0) as H0 by lia.
  assert (Endpoints (config w) !! Z.to_nat 0 = Some anthropic) as H1
    by reflexivity.
  assert (testRequest anthropic = inr req) as H2 by reflexivity.
  split; [by split_and!|].
  exact (probe_credential_placement w 0 anthropic req H0 H1 H2).
Defined.

Lemma probe_url_by_kind_at_gemini :
  let w := started cfg3 in
  let req := match testRequest gemini with
             | inr r => r
             | inl _ => mkRequest "" "" [] ∅ JNull
             end in
  (0 ≤ 2
   ∧ Endpoints (config w) !! Z.to_nat 2 = Some gemini
   ∧ testRequest gemini = inr req)
  ∧ URL req = "https://generativelanguage.googleapis.com/v1beta/models/gemini-1.5-pro:generateContent"
  ∧ wire (snd (TestEndpoint 2 w)) = wire w ++ [(testClient, req)]
  ∧ Method req = "POST"
  ∧ let kind := orClaude (Transformer gemini) in
    ∃ path,
      URL req = "https://" +:+ APIUrl gemini +:+ path
      ∧ ((kind = "claude" ∧ path = "/v1/messages")
         ∨ (kind = "openai" ∧ path = "/v1/chat/completions")
         ∨ (kind = "gemini"
            ∧ path = "/v1beta/models/"
                     +:+ (if decide (Model gemini = "") then "gemini-pro"
                          else Model gemini)
                     +:+ ":generateContent")).
Proof.
  intros w req.
  assert (0 ≤ 2) as H0 by lia.
  assert (Endpoints (config w) !! Z.to_nat 2 = Some gemini) as H1
    by reflexivity.
  assert (testRequest gemini = inr req) as H2 by reflexivity.
  split; [by split_and!|]. split; [reflexivity|].
  exact (probe_url_by_kind w 2 gemini req H0 H1 H2).
Defined.

(** The claim of C5 fails here: after SIGINT the status is 0, not 130;
    when the ports cannot be bound the status is 0, not 2; when the
    configuration cannot be read the status is 0, not 1. *)
Lemma main_exits_0_on_signal_bind_failure_and_bad_config :
  fst (main (Ext := live) (process SIGINT None)) = 0
  ∧ fst (main (Ext := taken)
           (process SIGTERM
              (Some "listen tcp 127.0.0.1:8080: bind: address already in use")))
    = 0
  ∧ fst (main (Ext := unreadable) (process SIGTERM None)) = 0.
Proof. vm_compute. by split_and!. Qed.

Lemma errors_le_requests_after_failover :
  let s := match Stats.run failover Stats.init with
           | Some e => Stats.store e
           | None => ∅
           end in
  Stats.reachable s
  ∧ Stats.entry "A" s = Stats.mkStat 1 1 0 0 10
  ∧ (Stats.errors (Stats.entry "A" s) ≤ Stats.requests (Stats.entry "A" s))%N
  ∧ 0 ≤ Stats.successes (Stats.entry "A" s).
Proof.
  intros s.
  assert (Stats.reachable s) as H.
  { exists failover. eexists. split; reflexivity. }
  split; [exact H|]. split; [reflexivity|].
  exact (StatsFacts.errors_le_requests s "A" H).
Defined.

End Instances.

(* ===================================================================== *)
(** * Further properties of app.go *)
(* ===================================================================== *)

(** ** Changes of the endpoint list *)

Section ListFacts.

Context {Proxy : Type} {Ext : Externals Proxy}.
Implicit Types (w : World Proxy) (index : Z).

(** The endpoint list after [RemoveEndpoint] at an index within range,
    whatever it returns. *)
Lemma RemoveEndpoint_endpoints w index :
  badIndex index (Endpoints (config w)) = false →
  Endpoints (config (snd (RemoveEndpoint index w)))
  = take (Z.to_nat index) (Endpoints (config w))
    ++ drop (S (Z.to_nat index)) (Endpoints (config w)).
Proof.
  intros Hok. unfold RemoveEndpoint. unfold_method. rewrite Hok.
  repeat next_outcome; done.
Qed.

(** The endpoint list after [ToggleEndpoint] at an index within range,
    whatever it returns. *)
Lemma ToggleEndpoint_endpoints w index enabled :
  badIndex index (Endpoints (config w)) = false →
  Endpoints (config (snd (ToggleEndpoint index enabled w)))
  = <[Z.to_nat index :=
        setEnabled enabled (Endpoints (config w) !!! Z.to_nat index)]>
      (Endpoints (config w)).
Proof.
  intros Hok. unfold ToggleEndpoint. unfold_method. rewrite Hok.
  repeat next_outcome; done.
Qed.

(** RemoveEndpoint at a valid index takes exactly that endpoint out: the
    endpoints before it keep their place, those after it move up by one,
    whatever validation, proxy and save answer. *)
Theorem RemoveEndpoint_takes_one_out w index old :
  0 ≤ index →
  Endpoints (config w) !! Z.to_nat index = Some old →
  let eps := Endpoints (config w) in
  let eps' := Endpoints (config (snd (RemoveEndpoint index w))) in
  S (length eps') = length eps
  ∧ (∀ j, (j < Z.to_nat index)%nat → eps' !! j = eps !! j)
  ∧ (∀ j, (Z.to_nat index ≤ j)%nat → eps' !! j = eps !! S j).
Proof.
  intros Hpos Hold eps eps'.
  assert (Z.to_nat index < length eps)%nat as Hlt by by eapply lookup_lt_Some.
  assert (badIndex index eps = false) as Hok by (apply badIndex_false; lia).
  subst eps'. rewrite RemoveEndpoint_endpoints by done. fold eps.
  rewrite <- delete_take_drop. split_and!.
  - rewrite length_delete by eauto. lia.
  - intros j Hj. by rewrite list_lookup_delete_lt.
  - intros j Hj. by rewrite list_lookup_delete_ge.
Qed.

(** ToggleEndpoint at a valid index sets the enabled flag of that endpoint
    and nothing else in the list; the validation of the configuration is
    never consulted, so the outcome is the same under every validation
    function (also when the last enabled endpoint is switched off). *)
Theorem ToggleEndpoint_sets_flag_unvalidated w index old enabled :
  0 ≤ index →
  Endpoints (config w) !! Z.to_nat index = Some old →
  let eps := Endpoints (config w) in
  let eps' := Endpoints (config (snd (ToggleEndpoint index enabled w))) in
  eps' !! Z.to_nat index
    = Some (mkEndpoint (Name old) (APIUrl old) (APIKey old) enabled
                       (Transformer old) (Model old) (Remark old))
  ∧ length eps' = length eps
  ∧ (∀ j, j ≠ Z.to_nat index → eps' !! j = eps !! j)
  ∧ ∀ v, ToggleEndpoint (Ext := withValidate v Ext) index enabled w
         = ToggleEndpoint index enabled w.
Proof.
  intros Hpos Hold eps eps'.
  assert (Z.to_nat index < length eps)%nat as Hlt by by eapply lookup_lt_Some.
  assert (badIndex index eps = false) as Hok by (apply badIndex_false; lia).
  subst eps'. rewrite ToggleEndpoint_endpoints by done. fold eps.
  rewrite (list_lookup_total_correct _ _ _ Hold).
  split_and!.
  - by rewrite list_lookup_insert_eq.
  - by rewrite length_insert.
  - intros j Hj. by rewrite list_lookup_insert_ne.
  - intros v. unfold ToggleEndpoint. unfold_method. fold eps. by rewrite Hok.
Qed.

(** Adding an endpoint and removing the last one gives the list back,
    whatever either call returns. *)
Theorem AddEndpoint_then_RemoveEndpoint w name apiUrl apiKey transformer model remark :
  let w1 := snd (AddEndpoint name apiUrl apiKey transformer model remark w) in
  let last := Z.of_nat (length (Endpoints (config w))) in
  Endpoints (config (snd (RemoveEndpoint last w1))) = Endpoints (config w).
Proof.
  intros w1 last.
  assert (Endpoints (config w1)
          = Endpoints (config w)
            ++ [mkEndpoint name (normalizeAPIUrl apiUrl) apiKey true
                  (orClaude transformer) model remark]) as Hadd
    by apply AddEndpoint_endpoints.
  rewrite RemoveEndpoint_endpoints.
  - rewrite Hadd. subst last. rewrite Nat2Z.id.
    rewrite take_app_length, drop_ge; [by rewrite app_nil_r|].
    rewrite length_app. simpl. lia.
  - apply badIndex_false. rewrite Hadd, length_app. simpl. lia.
Qed.

(** When the validation refuses the list with the new endpoint, AddEndpoint
    returns its error with the proxy, the file and the log untouched, and
    the refused endpoint stays in the configuration in memory. *)
Theorem AddEndpoint_refused_stays_in_memory w err
    name apiUrl apiKey transformer model remark :
  let added :=
    setEndpoints
      (Endpoints (config w)
       ++ [mkEndpoint name (normalizeAPIUrl apiUrl) apiKey true
             (orClaude transformer) model remark]) (config w) in
  ConfigValidate added = Some err →
  AddEndpoint name apiUrl apiKey transformer model remark w
  = (Some err, withConfig added w).
Proof.
  intros added Hval. unfold AddEndpoint. unfold_method.
  fold added. by rewrite Hval.
Qed.

(** A refused endpoint is saved by the next operation that does not
    validate: after AddEndpoint was refused, switching the new endpoint on
    (which it already is) hands the refused configuration to the proxy and
    writes it to the file. *)
Theorem refused_endpoint_saved_by_toggle w err px
    name apiUrl apiKey transformer model remark :
  let e := mkEndpoint name (normalizeAPIUrl apiUrl) apiKey true
             (orClaude transformer) model remark in
  let added := setEndpoints (Endpoints (config w) ++ [e]) (config w) in
  ConfigValidate added = Some err →
  ProxyUpdateConfig added (proxy w) = (None, px) →
  ConfigSave (configPath w) added = None →
  let '(err1, w1) := AddEndpoint name apiUrl apiKey transformer model remark w in
  let '(err2, w2) :=
    ToggleEndpoint (Z.of_nat (length (Endpoints (config w)))) true w1 in
  err1 = Some err
  ∧ err2 = None
  ∧ config w2 = added
  ∧ proxy w2 = px
  ∧ disk w2 !! configPath w2 = Some added
  ∧ e ∈ Endpoints added.
Proof.
  intros e added Hval Hproxy Hsave.
  assert (AddEndpoint name apiUrl apiKey transformer model remark w
          = (Some err, withConfig added w)) as ->.
  { unfold AddEndpoint. unfold_method. fold e added. by rewrite Hval. }
  unfold ToggleEndpoint. unfold_method.
  assert (badIndex (Z.of_nat (length (Endpoints (config w))))
            (Endpoints (config w) ++ [e]) = false) as ->.
  { apply badIndex_false. rewrite length_app. simpl. lia. }
  rewrite Nat2Z.id.
  assert ((Endpoints (config w) ++ [e]) !!! length (Endpoints (config w)) = e)
    as ->.
  { apply list_lookup_total_correct.
    by rewrite lookup_app_r, Nat.sub_diag by lia. }
  assert (<[length (Endpoints (config w)) := setEnabled true e]>
            (Endpoints (config w) ++ [e]) = Endpoints (config w) ++ [e]) as Hid.
  { apply list_insert_id. by rewrite lookup_app_r, Nat.sub_diag by lia. }
  simpl. rewrite Hid.
  change (setEndpoints (Endpoints (config w) ++ [e]) added) with added.
  rewrite Hproxy. simpl. rewrite Hsave. simpl.
  split_and!; try done.
  - by rewrite lookup_insert_eq.
  - apply elem_of_app. right. by apply list_elem_of_singleton.
Qed.

End ListFacts.

(** ** Reordering *)

Section ReorderFacts.

Context {Proxy : Type} {Ext : Externals Proxy}.
Implicit Types (w : World Proxy) (names : list string) (eps : list Endpoint).

Lemma firstDuplicate_None seen names :
  firstDuplicate seen names = None
  ↔ NoDup names ∧ ∀ n, n ∈ names → n ∉ seen.
Proof.
  revert seen. induction names as [|n names IH]; intros seen; simpl.
  - split; [|done]. intros _. split; [constructor|]. by intros n ?%elem_of_nil.
  - destruct (decide (n ∈ seen)) as [Hin|Hin].
    + split; [done|]. intros [_ H]. destruct (H n); [left|done].
    + rewrite IH, NoDup_cons. split.
      * intros [Hnd H]. split_and!; try done.
        -- intros Hn. apply (H n Hn).
           apply elem_of_union. left. by apply elem_of_singleton.
        -- intros x [->|Hx]%elem_of_cons; [done|].
           intros ?. apply (H x Hx). apply elem_of_union. by right.
      * intros [[Hn Hnd] H]. split; [done|].
        intros x Hx [->%elem_of_singleton|Hs]%elem_of_union; [done|].
        apply (H x); [by right|done].
Qed.

Lemma endpointMap_snoc eps e :
  endpointMap (eps ++ [e]) = <[Name e := e]> (endpointMap eps).
Proof. unfold endpointMap. by rewrite foldl_snoc. Qed.

(** An entry of the map is an endpoint of the list, under its own name. *)
Lemma endpointMap_lookup_Some eps n ep :
  endpointMap eps !! n = Some ep → ep ∈ eps ∧ Name ep = n.
Proof.
  induction eps as [|e eps IH] using rev_ind; [done|].
  rewrite endpointMap_snoc. destruct (decide (Name e = n)) as [<-|Hne].
  - rewrite lookup_insert_eq. intros [= <-]. split; [|done].
    apply elem_of_app. right. by left.
  - rewrite lookup_insert_ne by done. intros [? ?]%IH. split; [|done].
    apply elem_of_app. by left.
Qed.

(** With distinct names every endpoint is found under its name. *)
Lemma endpointMap_lookup_NoDup eps ep :
  NoDup (Name <$> eps) → ep ∈ eps → endpointMap eps !! Name ep = Some ep.
Proof.
  induction eps as [|e eps IH] using rev_ind; [by intros _ ?%elem_of_nil|].
  rewrite fmap_app, endpointMap_snoc. simpl.
  intros [Hnd [Hdisj _]]%NoDup_app [Hin|Hin%list_elem_of_singleton]%elem_of_app.
  - rewrite lookup_insert_ne; [by apply IH|].
    intros Heq. apply (Hdisj (Name ep)).
    + apply list_elem_of_fmap. eauto.
    + rewrite <- Heq. by left.
  - subst. by rewrite lookup_insert_eq.
Qed.

Lemma inOrder_inr m names eps :
  inOrder m names = inr eps ↔ Forall2 (λ n ep, m !! n = Some ep) names eps.
Proof.
  revert eps. induction names as [|n names IH]; intros eps; simpl.
  - split; [by intros [= <-]; constructor|]. by intros ->%Forall2_nil_inv_l.
  - destruct (m !! n) as [ep|] eqn:Hn.
    + destruct (inOrder m names) as [miss|eps0] eqn:Hrest.
      * split; [done|]. intros (ep' & eps' & _ & H & _)%Forall2_cons_inv_l.
        by apply IH in H.
      * split.
        -- intros [= <-]. constructor; [done|]. by apply IH.
        -- intros (ep' & eps' & Hep & H & ->)%Forall2_cons_inv_l.
           apply IH in H. congruence.
    + split; [done|]. intros (ep' & eps' & Hep & _)%Forall2_cons_inv_l.
      congruence.
Qed.

(** The checks of [ReorderEndpoints] pass exactly for a list of names that
    is a rearrangement of the endpoints' names, these being distinct. *)
Lemma reorder_checks names eps :
  (length names = length eps
   ∧ firstDuplicate ∅ names = None
   ∧ ∃ new, inOrder (endpointMap eps) names = inr new)
  ↔ NoDup (Name <$> eps) ∧ names ≡ₚ Name <$> eps.
Proof.
  split.
  - intros (Hlen & [Hnd _]%firstDuplicate_None & new & Hnew%inOrder_inr).
    assert (names ⊆+ Name <$> eps) as Hsub.
    { apply NoDup_submseteq; [done|]. intros n Hn.
      apply list_elem_of_lookup in Hn as [i Hi].
      destruct (Forall2_lookup_l _ _ _ _ _ Hnew Hi) as (ep & _ & Hep).
      apply endpointMap_lookup_Some in Hep as [Hin <-].
      apply list_elem_of_fmap. eauto. }
    assert (names ≡ₚ Name <$> eps) as Hperm.
    { apply submseteq_length_Permutation; [done|].
      rewrite length_fmap. lia. }
    split; [|done]. by rewrite <- Hperm.
  - intros [Hnd Hperm].
    assert (NoDup names) as Hnames by by rewrite Hperm.
    split_and!.
    + by rewrite Hperm, length_fmap.
    + apply firstDuplicate_None. split; [done|]. intros n _. apply not_elem_of_empty.
    + exists ((λ n, default inhabitant (endpointMap eps !! n)) <$> names).
      apply inOrder_inr. apply Forall2_fmap_r, Forall_Forall2_diag.
      apply Forall_forall. intros n Hn. rewrite Hperm in Hn.
      apply list_elem_of_fmap in Hn as (ep & -> & Hep).
      simpl. by rewrite (endpointMap_lookup_NoDup eps ep Hnd Hep).
Qed.

(** When the endpoints have distinct names and [names] lists these names
    in some order, ReorderEndpoints stores the same endpoints in the order
    of [names], whatever validation, proxy and save answer. *)
Theorem ReorderEndpoints_rearranges w names :
  NoDup (Name <$> Endpoints (config w)) →
  names ≡ₚ Name <$> Endpoints (config w) →
  let eps' := Endpoints (config (snd (ReorderEndpoints names w))) in
  Name <$> eps' = names ∧ eps' ≡ₚ Endpoints (config w).
Proof.
  intros Hnd Hperm.
  destruct (proj2 (reorder_checks names (Endpoints (config w))))
    as (Hlen & Hdup & new & Hnew); [done|].
  assert (Endpoints (config (snd (ReorderEndpoints names w))) = new) as ->.
  { unfold ReorderEndpoints. unfold_method.
    destruct (decide (length names ≠ length (Endpoints (config w))))
      as [Hne|_]; [by destruct Hne|].
    rewrite Hdup, Hnew. simpl.
    repeat next_outcome; done. }
  apply inOrder_inr in Hnew. simpl. split.
  - apply list_eq. intros i. rewrite list_lookup_fmap.
    destruct (names !! i) as [n|] eqn:Hn.
    + destruct (Forall2_lookup_l _ _ _ _ _ Hnew Hn) as (ep & -> & Hep).
      apply endpointMap_lookup_Some in Hep as [_ <-]. done.
    + apply lookup_ge_None in Hn.
      rewrite (proj2 (lookup_ge_None new i)); [done|].
      by rewrite <- (Forall2_length _ _ _ Hnew).
  - set (f := λ n, default inhabitant (endpointMap (Endpoints (config w)) !! n)).
    assert (new = f <$> names) as ->.
    { apply list_eq. intros i. rewrite list_lookup_fmap.
      destruct (names !! i) as [n|] eqn:Hn.
      - destruct (Forall2_lookup_l _ _ _ _ _ Hnew Hn) as (ep & -> & Hep).
        simpl. unfold f. by rewrite Hep.
      - apply lookup_ge_None in Hn. simpl. apply lookup_ge_None.
        by rewrite <- (Forall2_length _ _ _ Hnew). }
    transitivity (f <$> (Name <$> Endpoints (config w))); [by rewrite Hperm|].
    rewrite <- list_fmap_compose.
    assert ((f ∘ Name) <$> Endpoints (config w) = id <$> Endpoints (config w))
      as ->; [|by rewrite list_fmap_id].
    apply Forall_fmap_ext, Forall_forall. intros ep Hep. simpl. unfold f.
    by rewrite (endpointMap_lookup_NoDup _ ep Hnd Hep).
Qed.

(** In every other case ReorderEndpoints returns an error and changes
    nothing: when [names] is no rearrangement of the endpoints' names, and
    also whenever two endpoints share a name. *)
Theorem ReorderEndpoints_refuses w names :
  ¬ (NoDup (Name <$> Endpoints (config w))
     ∧ names ≡ₚ Name <$> Endpoints (config w)) →
  ∃ msg, ReorderEndpoints names w = (Some msg, w).
Proof.
  intros Hnot. unfold ReorderEndpoints. unfold_method.
  destruct (decide (length names ≠ length (Endpoints (config w))))
    as [|Hlen%dec_stable]; [by eauto|].
  destruct (firstDuplicate ∅ names) as [dup|] eqn:Hdup; [by eauto|].
  destruct (inOrder (endpointMap (Endpoints (config w))) names)
    as [missing|new] eqn:Hnew; [by eauto|].
  destruct Hnot. apply reorder_checks. eauto.
Qed.

End ReorderFacts.

(** ** The whole-configuration update *)

Section ConfigFacts.

Context {Proxy : Type} {Ext : Externals Proxy}.
Implicit Types (w : World Proxy).

(** UpdateConfig replaces the configuration in memory only when it returns
    no error, and then the new configuration is the parsed one and is in
    the file; on every error the configuration in memory is the old one.
    A text that does not parse, or parses to a configuration that the
    validation refuses, is refused before anything is called: the whole
    state is as before. *)
Theorem AppUpdateConfig_all_or_nothing (parse : string → error + Config)
    (configJSON : string) w :
  let '(err, w') := AppUpdateConfig parse configJSON w in
  (err = None →
   ∃ c, parse configJSON = inr c ∧ ConfigValidate c = None
        ∧ config w' = c ∧ disk w' !! configPath w' = Some c)
  ∧ (err ≠ None → config w' = config w)
  ∧ ((∀ c, parse configJSON = inr c → ConfigValidate c ≠ None) →
     err ≠ None ∧ w' = w).
Proof.
  unfold AppUpdateConfig. unfold_method.
  destruct (parse configJSON) as [e|c] eqn:Hparse; simpl; [done|].
  destruct (ConfigValidate c) eqn:Hval; simpl; [done|].
  destruct (ProxyUpdateConfig c (proxy w)) as [[e|] px]; simpl.
  { split_and!; try done. intros H. by destruct (H c). }
  destruct (ConfigSave (configPath w) c); simpl.
  { split_and!; try done. intros H. by destruct (H c). }
  split_and!; try done.
  - intros _. exists c. split_and!; try done. by rewrite lookup_insert_eq.
  - intros H. by destruct (H c).
Qed.

(** When the proxy has taken the new configuration and the save fails,
    UpdateConfig returns the save error: the proxy runs on the new
    configuration while App still holds the old one. *)
Theorem AppUpdateConfig_save_failure (parse : string → error + Config)
    (configJSON : string) w c px e :
  parse configJSON = inr c →
  ConfigValidate c = None →
  ProxyUpdateConfig c (proxy w) = (None, px) →
  ConfigSave (configPath w) c = Some e →
  AppUpdateConfig parse configJSON w
  = (Some ("failed to save config: " +:+ e), withProxy px w).
Proof.
  intros Hparse Hval Hproxy Hsave. unfold AppUpdateConfig. unfold_method.
  rewrite Hparse, Hval. simpl. rewrite Hproxy. simpl. by rewrite Hsave.
Qed.

(** ** Log level and language *)

(** After SetLogLevel the configuration and the logger hold the level,
    whether the save worked or not; port, endpoints, language and proxy
    are as before. *)
Theorem SetLogLevel_then_GetLogLevel w level :
  let w' := snd (SetLogLevel level w) in
  fst (GetLogLevel w') = level
  ∧ minLevel w' = Some level
  ∧ Port (config w') = Port (config w)
  ∧ Endpoints (config w') = Endpoints (config w)
  ∧ Language (config w') = Language (config w)
  ∧ proxy w' = proxy w.
Proof.
  unfold SetLogLevel, GetLogLevel. unfold_method.
  destruct (ConfigSave _ _); done.
Qed.

(** What [Startup] leaves when the configuration file is read. *)
Lemma Startup_loaded (p : Process) path c :
  GetConfigPath = inr path →
  ConfigLoad path = inr c →
  let w := snd (Startup p) in
  config w = c
  ∧ configPath w = path
  ∧ proxy w = snd (ProxyStart c (ProxyNew c))
  ∧ disk w = files p
  ∧ minLevel w = (if LogLevel c >=? 0 then Some (LogLevel c) else None).
Proof.
  intros Hpath Hload. unfold Startup. rewrite Hpath, Hload.
  destruct (decide (envDEBUG p ≠ "")); [destruct (enableDebugFile p)|];
    destruct (LogLevel c >=? 0);
    destruct (ProxyStart c (ProxyNew c)) as [[?|] ?]; done.
Qed.

(** A level set by SetLogLevel and saved is given back to the logger by
    the next start-up only when it is not negative. *)
Theorem Startup_restores_level_from_0 (p : Process) w level :
  let w1 := snd (SetLogLevel level w) in
  ConfigSave (configPath w) (setLogLevel level (config w)) = None →
  GetConfigPath = inr (configPath w) →
  (∀ c, disk w1 !! configPath w = Some c → ConfigLoad (configPath w) = inr c) →
  minLevel (snd (Startup p)) = (if level >=? 0 then Some level else None).
Proof.
  intros w1 Hsave Hpath Hload.
  assert (disk w1 !! configPath w = Some (setLogLevel level (config w))) as Hd.
  { subst w1. unfold SetLogLevel. unfold_method. rewrite Hsave. simpl.
    by rewrite lookup_insert_eq. }
  destruct (Startup_loaded p _ _ Hpath (Hload _ Hd)) as (_ & _ & _ & _ & ->).
  done.
Qed.

(** A port stored by UpdatePort and saved is the port of the configuration
    the proxy is started on at the next start-up. *)
Theorem Startup_after_UpdatePort (p : Process) w port :
  let w1 := snd (UpdatePort port w) in
  1 ≤ port ≤ 65535 →
  ConfigSave (configPath w) (setPort port (config w)) = None →
  GetConfigPath = inr (configPath w) →
  (∀ c, disk w1 !! configPath w = Some c → ConfigLoad (configPath w) = inr c) →
  let w2 := snd (Startup p) in
  Port (config w2) = port
  ∧ proxy w2 = snd (ProxyStart (setPort port (config w))
                      (ProxyNew (setPort port (config w)))).
Proof.
  intros w1 Hport Hsave Hpath Hload.
  assert (disk w1 !! configPath w = Some (setPort port (config w))) as Hd.
  { subst w1. unfold UpdatePort. unfold_method.
    assert ((port <? 1) || (port >? 65535) = false) as ->
      by (rewrite Z.gtb_ltb, orb_false_iff, !Z.ltb_ge; lia).
    simpl. rewrite Hsave. simpl. by rewrite lookup_insert_eq. }
  intros w2.
  destruct (Startup_loaded p _ _ Hpath (Hload _ Hd)) as (Hc & _ & Hp & _).
  subst w2. by rewrite Hc, Hp.
Qed.

(** After SetLanguage, GetLanguage answers the language set, or the system
    language when the empty string was set, whether the save worked or
    not; SetLanguage returns the wrapped save error, if any. *)
Theorem SetLanguage_then_GetLanguage (mapLower : string → string)
    (env : Locale) w language :
  let '(err, w') := SetLanguage language w in
  fst (GetLanguage mapLower env w')
  = (if decide (language = "") then GetSystemLanguage mapLower env
     else language)
  ∧ err = (λ e, "failed to save language: " +:+ e)
          <$> ConfigSave (configPath w) (setLanguage language (config w))
  ∧ Endpoints (config w') = Endpoints (config w)
  ∧ Port (config w') = Port (config w).
Proof.
  unfold SetLanguage, GetLanguage. unfold_method.
  destruct (ConfigSave _ _); done.
Qed.

End ConfigFacts.

(** ** What normalizeAPIUrl removes *)

Section NormalizeMore.

Import Strings StringsFacts.

Lemma TrimPrefix_cases s p :
  TrimPrefix s p = s ∨ s = p +:+ TrimPrefix s p.
Proof.
  unfold TrimPrefix. destruct (HasPrefix s p) eqn:E; [|by left].
  right. apply HasPrefix_spec in E as [r ->]. by rewrite drop_app.
Qed.

Lemma TrimSuffix_cases s x :
  TrimSuffix s x = s ∨ s = TrimSuffix s x +:+ x.
Proof.
  destruct (HasSuffix s x) eqn:E; [|left; by apply TrimSuffix_id].
  right. apply HasSuffix_spec in E as [r ->]. by rewrite TrimSuffix_app.
Qed.

(** normalizeAPIUrl only ever removes a scheme prefix from the front and
    one slash from the end: every input is its result between one of the
    four possible removed prefixes and an optional slash. In particular a
    path after the host is kept. *)
Theorem normalizeAPIUrl_removes_affixes_only (s : string) :
  ∃ p x,
    s = p +:+ normalizeAPIUrl s +:+ x
    ∧ (p = "" ∨ p = "https://" ∨ p = "http://" ∨ p = "https://http://")
    ∧ (x = "" ∨ x = "/")
    ∧ (String.length (normalizeAPIUrl s) ≤ String.length s)%nat.
Proof.
  unfold normalizeAPIUrl.
  set (s1 := TrimPrefix s "https://").
  set (s2 := TrimPrefix s1 "http://").
  set (s3 := TrimSuffix s2 "/").
  assert (∃ x, s2 = s3 +:+ x ∧ (x = "" ∨ x = "/")) as (x & H3 & Hx).
  { destruct (TrimSuffix_cases s2 "/") as [H|H]; fold s3 in H.
    - exists "". rewrite app_empty_r. split; [done|by left].
    - exists "/". split; [done|by right]. }
  assert (∃ p, s = p +:+ s2
               ∧ (p = "" ∨ p = "https://" ∨ p = "http://"
                  ∨ p = "https://http://")) as (p & Hp & Hpc).
  { destruct (TrimPrefix_cases s "https://") as [H1|H1];
      destruct (TrimPrefix_cases s1 "http://") as [H2|H2];
      fold s1 in H1; fold s2 in H2.
    - exists "". split; [|by left]. by rewrite app_empty_l, H2, H1.
    - exists "http://". split; [|by right; right; left]. by rewrite <- H2, H1.
    - exists "https://". split; [|by right; left]. by rewrite H2.
    - exists "https://http://". split; [|by right; right; right].
      rewrite H1 at 1. rewrite H2 at 1. by rewrite <- app_assoc. }
  exists p, x. split_and!; try done.
  - by rewrite Hp, H3.
  - rewrite Hp, H3, !length_app. lia.
Qed.

End NormalizeMore.

(** ** The system language *)

Module LanguageFacts.

Import Strings StringsFacts StringsExt.

Lemma Contains_unfold s sub :
  Contains s sub
  = HasPrefix s sub
    || match s with
       | EmptyString => false
       | String _ s' => Contains s' sub
       end.
Proof. by destruct s. Qed.

Lemma Contains_spec s sub :
  Contains s sub = true ↔ ∃ pre post, s = pre +:+ sub +:+ post.
Proof.
  induction s as [|c s IH]; rewrite Contains_unfold, orb_true_iff.
  - split.
    + intros [[r ->]%HasPrefix_spec|?]; [|done]. by exists "", r.
    + intros (pre & post & H). left. apply HasPrefix_spec.
      destruct pre; [by exists post|done].
  - split.
    + intros [[r ->]%HasPrefix_spec|(pre & post & ->)%IH].
      * by exists "", r.
      * by exists (String c pre), post.
    + intros (pre & post & H). destruct pre as [|c' pre].
      * left. apply HasPrefix_spec. by exists post.
      * right. apply IH. rewrite app_cons in H. injection H as -> ->. eauto.
Qed.

Lemma lowerASCII_cons c s :
  lowerASCII (String c s) = String (lowerByte c) (lowerASCII s).
Proof. done. Qed.

Lemma lowerASCII_app a b : lowerASCII (a +:+ b) = lowerASCII a +:+ lowerASCII b.
Proof.
  induction a as [|c a IH]; [done|].
  by rewrite app_cons, !lowerASCII_cons, app_cons, IH.
Qed.

Lemma lowerByte_z c : lowerByte c = "z"%char ↔ c = "z"%char ∨ c = "Z"%char.
Proof.
  split.
  - destruct c as [[] [] [] [] [] [] [] []]; vm_compute; intros H;
      first [discriminate H | by left | by right].
  - by intros [-> | ->].
Qed.

Lemma lowerByte_h c : lowerByte c = "h"%char ↔ c = "h"%char ∨ c = "H"%char.
Proof.
  split.
  - destruct c as [[] [] [] [] [] [] [] []]; vm_compute; intros H;
      first [discriminate H | by left | by right].
  - by intros [-> | ->].
Qed.

(** Where the lowered string has [zh], the string has z or Z followed by
    h or H. *)
Lemma lowerASCII_zh s :
  (∃ pre post, lowerASCII s = pre +:+ "zh" +:+ post)
  ↔ ∃ pre c1 c2 post,
      s = pre +:+ String c1 (String c2 post)
      ∧ (c1 = "z"%char ∨ c1 = "Z"%char) ∧ (c2 = "h"%char ∨ c2 = "H"%char).
Proof.
  split.
  - intros (pre & post & H). revert s H.
    induction pre as [|c pre IH]; intros s H.
    + destruct s as [|c1 [|c2 s]]; try done.
      rewrite !lowerASCII_cons in H. injection H as H1 H2 _.
      exists "", c1, c2, s. split; [done|].
      split; [by apply lowerByte_z|by apply lowerByte_h].
    + destruct s as [|c0 s]; [done|].
      rewrite lowerASCII_cons, app_cons in H. injection H as _ H.
      destruct (IH s H) as (pre' & c1 & c2 & post' & -> & ?).
      by exists (String c0 pre'), c1, c2, post'.
  - intros (pre & c1 & c2 & post & -> & H1%lowerByte_z & H2%lowerByte_h).
    exists (lowerASCII pre), (lowerASCII post).
    by rewrite lowerASCII_app, !lowerASCII_cons, H1, H2.
Qed.

(** GetSystemLanguage answers "en" or "zh-CN"; it answers "en" when none
    of LANG, LC_ALL and LANGUAGE is set, and otherwise looks only at the
    first of them that is set. *)
Theorem GetSystemLanguage_first_set (mapLower : string → string) (env : Locale) :
  (GetSystemLanguage mapLower env = "en"
   ∨ GetSystemLanguage mapLower env = "zh-CN")
  ∧ (envLANG env = "" → envLC_ALL env = "" → envLANGUAGE env = "" →
     GetSystemLanguage mapLower env = "en")
  ∧ (envLANG env ≠ "" → ∀ a b,
     GetSystemLanguage mapLower (mkLocale (envLANG env) a b)
     = GetSystemLanguage mapLower env)
  ∧ (envLANG env = "" → envLC_ALL env ≠ "" → ∀ b,
     GetSystemLanguage mapLower (mkLocale "" (envLC_ALL env) b)
     = GetSystemLanguage mapLower env).
Proof.
  destruct env as [l1 l2 l3]. unfold GetSystemLanguage. simpl.
  split_and!.
  - repeat case_decide; auto;
      match goal with
      | |- context [Contains ?a ?b] => destruct (Contains a b)
      end; auto.
  - by intros -> -> ->.
  - intros H a b. by repeat case_decide.
  - intros -> H b. by repeat case_decide.
Qed.

(** For an ASCII value of LANG, GetSystemLanguage answers "zh-CN" exactly
    when the value has a z followed by an h somewhere, in either case of
    the letters. *)
Theorem GetSystemLanguage_zh_anywhere (mapLower : string → string) (env : Locale) :
  envLANG env ≠ "" →
  isASCII (envLANG env) = true →
  GetSystemLanguage mapLower env = "zh-CN"
  ↔ ∃ pre c1 c2 post,
      envLANG env = pre +:+ String c1 (String c2 post)
      ∧ (c1 = "z"%char ∨ c1 = "Z"%char) ∧ (c2 = "h"%char ∨ c2 = "H"%char).
Proof.
  intros Hset Hascii. rewrite <- lowerASCII_zh, <- Contains_spec.
  unfold GetSystemLanguage, ToLower.
  repeat case_decide; try done. rewrite Hascii.
  by destruct (Contains _ _).
Qed.

End LanguageFacts.

(** ** The outcome of the connection test *)

Section OutcomeFacts.

Context {Proxy : Type} {Ext : Externals Proxy}.
Implicit Types (w : World Proxy) (index : Z).

Lemma testRequest_failure endpoint failure :
  testRequest endpoint = inl failure → success failure = false.
Proof.
  unfold testRequest.
  destruct (testPayload _ _) as [[apiPath body]|]; [|by intros [= <-]].
  destruct (NewRequestErr _); by intros [= <-].
Qed.

(** For an endpoint within range TestEndpoint reports success exactly when
    a request was built, the client got a reply, its status is 200 and its
    body could be read; the content of the body plays no part. *)
Theorem TestEndpoint_succeeds_iff w index endpoint :
  0 ≤ index →
  Endpoints (config w) !! Z.to_nat index = Some endpoint →
  success (fst (TestEndpoint index w)) = true
  ↔ ∃ req resp body,
      testRequest endpoint = inr req
      ∧ ClientDo testClient req = inr resp
      ∧ StatusCode resp = StatusOK
      ∧ ReadAll resp = inr body.
Proof.
  intros Hpos Hlook.
  assert (badIndex index (Endpoints (config w)) = false) as Hok.
  { apply badIndex_false. apply lookup_lt_Some in Hlook. lia. }
  unfold TestEndpoint, sendProbe. unfold_method. rewrite Hok.
  rewrite (list_lookup_total_correct _ _ _ Hlook).
  destruct (testRequest endpoint) as [failure|req] eqn:Hreq; simpl.
  { rewrite (testRequest_failure _ _ Hreq). split; [done|].
    by intros (? & ? & ? & [=] & _). }
  destruct (ClientDo testClient req) as [err|resp] eqn:Hdo; simpl.
  { split; [done|]. intros (? & ? & ? & [= <-] & ? & _). congruence. }
  destruct (ReadAll resp) as [err|body] eqn:Hread; simpl.
  { split; [done|]. intros (? & ? & ? & [= <-] & ? & _ & ?). congruence. }
  destruct (decide (StatusCode resp ≠ StatusOK)) as [Hne|Heq%dec_stable]; simpl.
  { split; [done|]. intros (? & ? & ? & [= <-] & ? & ? & _). congruence. }
  destruct (Unmarshal body); simpl; (split; [intros _|done]);
    by exists req, resp, body.
Qed.

(** After a reply with status 200 the message shown is the text taken
    from the parsed body when there is one, and the body itself otherwise
    (also when the body is no JSON object); it is empty only when the body
    is empty. *)
Theorem TestEndpoint_message_of_reply w index endpoint req resp body :
  0 ≤ index →
  Endpoints (config w) !! Z.to_nat index = Some endpoint →
  testRequest endpoint = inr req →
  ClientDo testClient req = inr resp →
  StatusCode resp = StatusOK →
  ReadAll resp = inr body →
  let msg := message (fst (TestEndpoint index w)) in
  let text := match Unmarshal body with
              | Some data => extractMessage (orClaude (Transformer endpoint)) data
              | None => ""
              end in
  msg = (if decide (text = "") then body else text)
  ∧ (msg = "" → body = "").
Proof.
  intros Hpos Hlook Hreq Hdo Hstatus Hread.
  assert (badIndex index (Endpoints (config w)) = false) as Hok.
  { apply badIndex_false. apply lookup_lt_Some in Hlook. lia. }
  unfold TestEndpoint, sendProbe. unfold_method. rewrite Hok.
  rewrite (list_lookup_total_correct _ _ _ Hlook), Hreq. simpl.
  rewrite Hdo. simpl. rewrite Hread. simpl.
  destruct (decide (StatusCode resp ≠ StatusOK)) as [|_]; [done|]. simpl.
  destruct (Unmarshal body) as [data|]; simpl.
  - destruct (decide (extractMessage _ data = "")); simpl; split; done.
  - split; done.
Qed.

End OutcomeFacts.

(** ** Shut-down *)

Section ShutdownFacts.

Context {Proxy : Type} {Ext : Externals Proxy}.

(** Shutdown stops the proxy whether the statistics could be saved or
    not, and leaves configuration and files alone. *)
Theorem Shutdown_stops_proxy (w : World Proxy) :
  let w' := snd (Shutdown w) in
  proxy w' = ProxyStop (proxy w)
  ∧ config w' = config w
  ∧ disk w' = disk w
  ∧ last (logs w') = Some (INFO, "Application stopped").
Proof.
  unfold Shutdown. unfold_method.
  destruct (ProxyStatsSave (proxy w)); simpl; split_and!; try done;
    by rewrite last_snoc.
Qed.

(** The proxy that Startup starts is stopped on every run that reaches
    the signal, also when the shutdown of the HTTP server then panics and
    the process ends with status 2. On the runs that end with status 1
    it is left running and nothing is shut down. When flag.Parse ends the
    process no App was made. "Goodbye!" is handed to the logger exactly
    on the runs that shut down and end with status 0, after the logger
    was closed. *)
Theorem main_shutdown_by_exit_status (p : Process) :
  let '(status, r) := main p in
  match flagParse p with
  | FlagsParsed =>
      ∃ w, appState r = Some w
           ∧ match setupStaticFiles p with
             | Some err =>
                 status = 1
                 ∧ proxy w = proxy (snd (Startup p))
                 ∧ last (logs w)
                   = Some (ERROR, "Failed to setup static files: " +:+ err)
                 ∧ afterClose r = []
             | None =>
                 proxy w = ProxyStop (proxy (snd (Startup p)))
                 ∧ last (logs w) = Some (INFO, "Application stopped")
                 ∧ match serverShutdown p with
                   | Panics => status = 2 ∧ afterClose r = []
                   | Returns _ =>
                       status = 0
                       ∧ last (afterClose r) = Some (INFO, "Goodbye!")
                   end
             end
  | FlagsHelp => status = 0 ∧ appState r = None ∧ afterClose r = []
  | FlagsRefused => status = 2 ∧ appState r = None ∧ afterClose r = []
  end.
Proof.
  pose proof (Startup_returns_nil p) as Hnil.
  unfold main. destruct (Startup p) as [err w]. simpl in Hnil. subst err.
  destruct (flagParse p); simpl; [|done..].
  destruct (setupStaticFiles p) as [e|]; simpl.
  - eexists. split; [done|]. split_and!; try done.
    unfold log. simpl. by rewrite last_snoc.
  - unfold Shutdown, log, say. unfold_method.
    destruct (serverStart p _) as [e|]; [destruct (decide (e ≠ ErrServerClosed))|];
      simpl; destruct (ProxyStatsSave (proxy w)); simpl;
      destruct (serverShutdown p) as [[?|]|]; simpl;
      (eexists; split; [done|]); simpl; split_and!; try done;
      by rewrite last_snoc.
Qed.

End ShutdownFacts.

(** ** The HTTP API *)

Section ApiFacts.

Import Strings StringsFacts.

Lemma uint_digits (d : Decimal.uint) :
  Forall (λ c, Header.isDigit c = true)
         (String.list_ascii_of_string (NilEmpty.string_of_uint d)).
Proof. induction d; simpl; by constructor. Qed.

Lemma splitOn_nonempty sep s : splitOn sep s ≠ [].
Proof.
  destruct s as [|c s]; simpl; [done|].
  destruct (Ascii.eqb c sep); [done|]. by destruct (splitOn sep s).
Qed.

Lemma splitOn_digits s :
  Forall (λ c, Header.isDigit c = true) (String.list_ascii_of_string s) →
  splitOn "/" s = [s].
Proof.
  induction s as [|c s IH]; simpl; [done|].
  intros [Hc Hs]%Forall_cons. rewrite (IH Hs).
  destruct (Ascii.eqb_spec c "/") as [->|_]; [discriminate Hc|done].
Qed.

(** A path splits at a slash into the segments before and after it. *)
Lemma splitOn_sep sep a b :
  splitOn sep (a +:+ String sep b) = splitOn sep a ++ splitOn sep b.
Proof.
  induction a as [|c a IH]; rewrite ?app_cons, ?app_empty_l; simpl.
  - by rewrite Ascii.eqb_refl.
  - rewrite IH. destruct (Ascii.eqb c sep); [done|].
    pose proof (splitOn_nonempty sep a). by destruct (splitOn sep a).
Qed.

(** The text of a number starts with a digit and has no slash. *)
Lemma numeral_shape n :
  ∃ c rest, Api.numeral n = String c rest
            ∧ Header.isDigit c = true
            ∧ splitOn "/" (Api.numeral n) = [Api.numeral n].
Proof.
  unfold Api.numeral, itoa.
  destruct (Z.of_nat n) as [|p|p] eqn:Hn; [by exists "0"%char, ""| |lia].
  simpl. pose proof (uint_digits (Pos.to_uint p)) as Hd.
  pose proof (Unsigned.to_uint_nonnil p) as Hnil.
  destruct (NilEmpty.string_of_uint (Pos.to_uint p)) as [|c rest] eqn:Hs.
  - destruct (Pos.to_uint p); done.
  - exists c, rest. split; [done|]. split.
    + by apply Forall_cons in Hd as [? _].
    + by apply splitOn_digits.
Qed.

(** A segment of a pattern that is a parameter, or starts with no digit,
    matches a number as it matches "0". *)
Lemma segMatch_number pat c rest :
  Header.isDigit c = true →
  HasPrefix pat ":"
  || match pat with
     | String p _ => negb (Header.isDigit p)
     | EmptyString => true
     end = true →
  segMatch pat (String c rest) = segMatch pat "0".
Proof.
  intros Hc Hpat. unfold segMatch.
  destruct (HasPrefix pat ":"); [done|]. simpl in Hpat.
  destruct pat as [|p pat]; [done|]. simpl.
  apply negb_true_iff in Hpat.
  destruct (Ascii.eqb_spec p c) as [->|_]; [congruence|].
  destruct (Ascii.eqb_spec p "0") as [->|_]; [done|done].
Qed.

Lemma pathMatch_number pats pre post c rest :
  Header.isDigit c = true →
  Forall (λ pat,
            HasPrefix pat ":"
            || match pat with
               | String p _ => negb (Header.isDigit p)
               | EmptyString => true
               end = true) pats →
  pathMatch pats (pre ++ String c rest :: post)
  = pathMatch pats (pre ++ "0" :: post).
Proof.
  intros Hc. revert pats. induction pre as [|s pre IH]; intros pats Hpats.
  - destruct pats as [|pat pats]; [done|]. simpl.
    apply Forall_cons in Hpats as [Hpat _].
    by rewrite (segMatch_number pat c rest).
  - destruct pats as [|pat pats]; [done|]. simpl.
    apply Forall_cons in Hpats as [_ Hpats]. by rewrite IH.
Qed.

(** No pattern of the server has a segment that starts with a digit. *)
Lemma routes_not_numeric :
  Forall (λ r,
            Forall (λ pat,
                      HasPrefix pat ":"
                      || match pat with
                         | String p _ => negb (Header.isDigit p)
                         | EmptyString => true
                         end = true)
                   (splitOn "/" (snd (fst r)))) routes.
Proof.
  assert (forallb
            (λ r, forallb
                    (λ pat,
                       HasPrefix pat ":"
                       || match pat with
                          | String p _ => negb (Header.isDigit p)
                          | EmptyString => true
                          end)
                    (splitOn "/" (snd (fst r)))) routes = true) as H
    by (vm_compute; reflexivity).
  apply Forall_forall. intros r Hr%list_elem_of_In.
  apply Forall_forall. intros pat Hpat%list_elem_of_In.
  rewrite forallb_forall in H. specialize (H r Hr).
  rewrite forallb_forall in H. exact (H pat Hpat).
Qed.

Lemma filter_Forall_iff {A} (P Q : A → Prop) `{∀ x, Decision (P x)}
    `{∀ x, Decision (Q x)} (l : list A) :
  Forall (λ x, P x ↔ Q x) l → filter P l = filter Q l.
Proof.
  induction 1 as [|x l Hx _ IH]; [done|].
  rewrite !filter_cons, IH.
  destruct (decide (P x)), (decide (Q x)); tauto || done.
Qed.

(** A request whose path has a number as one segment is dispatched as the
    request with "0" in its place. *)
Lemma dispatch_number verb path path0 pre post n :
  splitOn "/" path = pre ++ Api.numeral n :: post →
  splitOn "/" path0 = pre ++ "0" :: post →
  dispatch verb path = dispatch verb path0.
Proof.
  intros Hpath Hpath0. unfold dispatch. f_equal.
  apply filter_Forall_iff.
  eapply Forall_impl; [apply routes_not_numeric|].
  intros r Hr. simpl. rewrite Hpath, Hpath0.
  destruct (numeral_shape n) as (c & rest & -> & Hc & _).
  by rewrite (pathMatch_number _ pre post c rest Hc Hr).
Qed.

(** With [API_BASE] at its default the request of every function of api.js
    matches exactly one route of registerRoutes, the one written for it,
    except testEndpoint: the path it builds, /api/endpoints/{index}/test,
    matches none of them (registerRoutes has /api/endpoints/test/{index}),
    so it is not handed to the handler that calls TestEndpoint. *)
Theorem api_calls_reach_their_routes (c : Api.ApiCall) :
  let '(verb, path) := Api.apiRequest "/api" c in
  dispatch verb path
  = match c with
    | Api.testEndpoint _ => []
    | _ => [Api.target c]
    end.
Proof.
  destruct c as [| | | | |n|n|n|n| | | | | |n| | | | | | | | | | |];
    try (by vm_compute); simpl.
  - rewrite (dispatch_number PUT _ "/api/endpoints/0"
               [""; "api"; "endpoints"] [] n); [by vm_compute| |done].
    change ("/api" +:+ "/endpoints/" +:+ Api.numeral n)
      with ("/api/endpoints" +:+ String "/" (Api.numeral n)).
    rewrite splitOn_sep.
    by destruct (numeral_shape n) as (? & ? & _ & _ & ->).
  - rewrite (dispatch_number DELETE _ "/api/endpoints/0"
               [""; "api"; "endpoints"] [] n); [by vm_compute| |done].
    change ("/api" +:+ "/endpoints/" +:+ Api.numeral n)
      with ("/api/endpoints" +:+ String "/" (Api.numeral n)).
    rewrite splitOn_sep.
    by destruct (numeral_shape n) as (? & ? & _ & _ & ->).
  - rewrite (dispatch_number POST _ "/api/endpoints/0/toggle"
               [""; "api"; "endpoints"] ["toggle"] n); [by vm_compute| |done].
    change ("/api" +:+ "/endpoints/" +:+ Api.numeral n +:+ "/toggle")
      with ("/api/endpoints" +:+ String "/" (Api.numeral n +:+ String "/" "toggle")).
    rewrite !splitOn_sep.
    by destruct (numeral_shape n) as (? & ? & _ & _ & ->).
  - rewrite (dispatch_number POST _ "/api/endpoints/0/test"
               [""; "api"; "endpoints"] ["test"] n); [by vm_compute| |done].
    change ("/api" +:+ "/endpoints/" +:+ Api.numeral n +:+ "/test")
      with ("/api/endpoints" +:+ String "/" (Api.numeral n +:+ String "/" "test")).
    rewrite !splitOn_sep.
    by destruct (numeral_shape n) as (? & ? & _ & _ & ->).
  - rewrite (dispatch_number GET _ "/api/logs/level/0"
               [""; "api"; "logs"; "level"] [] n); [by vm_compute| |done].
    change ("/api" +:+ "/logs/level/" +:+ Api.numeral n)
      with ("/api/logs/level" +:+ String "/" (Api.numeral n)).
    rewrite splitOn_sep.
    by destruct (numeral_shape n) as (? & ? & _ & _ & ->).
Qed.

(** The route the server registers for the test is reached by the path
    with the index last. *)
Lemma test_route_path n :
  dispatch POST ("/api/endpoints/test/" +:+ Api.numeral n) = [CallTestEndpoint].
Proof.
  rewrite (dispatch_number POST _ "/api/endpoints/test/0"
             [""; "api"; "endpoints"; "test"] [] n); [by vm_compute| |done].
  change ("/api/endpoints/test/" +:+ Api.numeral n)
    with ("/api/endpoints/test" +:+ String "/" (Api.numeral n)).
  rewrite splitOn_sep.
  by destruct (numeral_shape n) as (? & ? & _ & _ & ->).
Qed.

End ApiFacts.

(** ** Reading the index of a request *)

Module FmtFacts.

Import Strings StringsFacts Fmt.

Lemma parseDigits_acc (d : Decimal.uint) (acc : positive) :
  parseDigits (Z.pos acc) (NilEmpty.string_of_uint d)
  = Some (Z.pos (Pos.of_uint_acc d acc)).
Proof.
  revert acc. induction d; intros acc; simpl; [done|..];
    rewrite <- IHd; f_equal; lia.
Qed.

Lemma parseDigits_uint (d : Decimal.uint) :
  parseDigits 0 (NilEmpty.string_of_uint d) = Some (Z.of_uint d).
Proof.
  unfold Z.of_uint. induction d; simpl; [done|done|..];
    apply (parseDigits_acc d).
Qed.

Lemma acceptDigits_none rest :
  fst (acceptDigits rest) = "" → acceptDigits rest = ("", rest).
Proof.
  destruct rest as [|c rest]; simpl; [done|].
  destruct (Header.isDigit c); [|done]. by destruct (acceptDigits rest).
Qed.

Lemma acceptDigits_uint (d : Decimal.uint) rest :
  fst (acceptDigits rest) = "" →
  acceptDigits (NilEmpty.string_of_uint d +:+ rest)
  = (NilEmpty.string_of_uint d, rest).
Proof.
  intros Hrest. induction d; rewrite ?app_cons; simpl;
    [by rewrite app_empty_l; apply acceptDigits_none|..]; by rewrite IHd.
Qed.

Lemma uint_text_nonempty (d : Decimal.uint) :
  d ≠ Decimal.Nil → NilEmpty.string_of_uint d ≠ "".
Proof. by destruct d. Qed.

Lemma SkipSpace_uint (d : Decimal.uint) rest :
  d ≠ Decimal.Nil →
  SkipSpace (NilEmpty.string_of_uint d +:+ rest)
  = Some (NilEmpty.string_of_uint d +:+ rest).
Proof.
  intros Hd. destruct d as [|d|d|d|d|d|d|d|d|d|d]; [done|..];
    simpl NilEmpty.string_of_uint; rewrite app_cons;
    destruct (_ +:+ rest) as [|c2 [|c3 s3]]; reflexivity.
Qed.

Lemma SkipSpace_minus s : SkipSpace (String "-" s) = Some (String "-" s).
Proof. destruct s as [|c2 [|c3 s3]]; reflexivity. Qed.

(** The value kept by [(i << (64 - n)) >> (64 - n)] on 64 bits. *)
Lemma shift_back (n i : Z) :
  0 < n ≤ 64 →
  - 2 ^ 63 ≤ i < 2 ^ 63 →
  Z.shiftr (wrap64 (Z.shiftl i (64 - n))) (64 - n) = i
  ↔ - 2 ^ (n - 1) ≤ i < 2 ^ (n - 1).
Proof.
  intros Hn Hi. unfold wrap64.
  rewrite Z.shiftl_mul_pow2, Z.shiftr_div_pow2 by lia.
  set (k := 2 ^ (64 - n)). set (h := 2 ^ (n - 1)).
  assert (0 < k) as Hk by (apply Z.pow_pos_nonneg; lia).
  assert (0 < h) as Hh by (apply Z.pow_pos_nonneg; lia).
  assert (2 ^ 63 = h * k) as H63.
  { unfold h, k. rewrite <- Z.pow_add_r by lia. f_equal. lia. }
  assert (2 ^ 64 = (2 * h) * k) as H64.
  { change (2 ^ 64) with (2 * 2 ^ 63). rewrite H63. lia. }
  rewrite H63, H64.
  replace (i * k + h * k) with ((i + h) * k) by lia.
  rewrite Z.mul_mod_distr_r by lia.
  replace ((i + h) mod (2 * h) * k - h * k)
    with (((i + h) mod (2 * h) - h) * k) by lia.
  rewrite Z.div_mul by lia.
  pose proof (Z.mod_pos_bound (i + h) (2 * h) ltac:(lia)) as Hb.
  split.
  - intros Heq. lia.
  - intros Hr. rewrite Z.mod_small by lia. lia.
Qed.

Lemma acceptSign_uint (d : Decimal.uint) rest :
  d ≠ Decimal.Nil →
  acceptSign (NilEmpty.string_of_uint d +:+ rest)
  = ("", NilEmpty.string_of_uint d +:+ rest).
Proof. by destruct d. Qed.

Lemma ParseInt_uint (d : Decimal.uint) :
  d ≠ Decimal.Nil →
  ParseInt (NilEmpty.string_of_uint d)
  = if Z.of_uint d >=? 2 ^ 63 then None else Some (Z.of_uint d).
Proof.
  intros Hd. pose proof (parseDigits_uint d) as Hv.
  pose proof (uint_text_nonempty d Hd) as Hne.
  unfold ParseInt.
  destruct d as [|d|d|d|d|d|d|d|d|d|d]; [done|..];
    simpl NilEmpty.string_of_uint in *; cbn [Ascii.eqb Bool.eqb];
    (destruct (decide _) as [|_]; [done|]);
    rewrite Hv; simpl; by destruct (_ >=? _).
Qed.

Lemma ParseInt_minus (d : Decimal.uint) :
  d ≠ Decimal.Nil →
  ParseInt (String "-" (NilEmpty.string_of_uint d))
  = if Z.of_uint d >? 2 ^ 63 then None else Some (- Z.of_uint d).
Proof.
  intros Hd. pose proof (parseDigits_uint d) as Hv.
  pose proof (uint_text_nonempty d Hd) as Hne.
  unfold ParseInt. cbn [Ascii.eqb Bool.eqb].
  destruct (decide _) as [|_]; [done|].
  rewrite Hv. simpl. by destruct (_ >? _).
Qed.

(** [Sscanf] on the text of a number, followed by anything that does not
    begin with a digit: the number is read when it fits in an [int], and
    an error is returned when it does not. *)
Lemma Sscanf_numeral (intBits z : Z) rest :
  0 < intBits ≤ 64 →
  fst (acceptDigits rest) = "" →
  Sscanf intBits (itoa z +:+ rest)
  = if decide (- 2 ^ (intBits - 1) ≤ z < 2 ^ (intBits - 1))
    then Some z else None.
Proof.
  intros Hbits Hrest.
  assert (2 ^ (intBits - 1) ≤ 2 ^ 63) as Hle
    by (apply Z.pow_le_mono_r; lia).
  assert (0 < 2 ^ (intBits - 1)) as Hpos by (apply Z.pow_pos_nonneg; lia).
  assert (∀ i, - 2 ^ 63 ≤ i < 2 ^ 63 →
            (if decide (Z.shiftr (wrap64 (Z.shiftl i (64 - intBits)))
                          (64 - intBits) ≠ i)
             then None else Some i)
            = if decide (- 2 ^ (intBits - 1) ≤ i < 2 ^ (intBits - 1))
              then Some i else None) as Hback.
  { intros i Hi. pose proof (shift_back intBits i Hbits Hi) as Hiff.
    repeat case_decide; try done; tauto. }
  assert (∀ d, d ≠ Decimal.Nil →
            Sscanf intBits (NilEmpty.string_of_uint d +:+ rest)
            = if decide (- 2 ^ (intBits - 1) ≤ Z.of_uint d
                         < 2 ^ (intBits - 1))
              then Some (Z.of_uint d) else None) as Hplus.
  { intros d Hd. unfold Sscanf, scanInt.
    rewrite (SkipSpace_uint d rest Hd). simpl.
    rewrite (SkipSpace_uint d rest Hd). simpl.
    destruct (decide (_ +:+ rest = "")) as [He|_].
    { destruct d; done. }
    rewrite (acceptSign_uint d rest Hd), (acceptDigits_uint d rest Hrest).
    destruct (decide (_ = "")) as [He|_];
      [by destruct (uint_text_nonempty d Hd)|].
    rewrite app_empty_l, (ParseInt_uint d Hd).
    assert (0 ≤ Z.of_uint d) as H0 by (unfold Z.of_uint; lia).
    destruct (Z.of_uint d >=? 2 ^ 63) eqn:E; simpl.
    - case_decide; [lia|done].
    - apply Hback. lia. }
  assert (∀ d, d ≠ Decimal.Nil →
            Sscanf intBits (String "-" (NilEmpty.string_of_uint d +:+ rest))
            = if decide (- 2 ^ (intBits - 1) ≤ - Z.of_uint d
                         < 2 ^ (intBits - 1))
              then Some (- Z.of_uint d) else None) as Hminus.
  { intros d Hd. unfold Sscanf, scanInt.
    rewrite SkipSpace_minus. cbn [mbind option_bind].
    rewrite SkipSpace_minus. cbn [mbind option_bind].
    destruct (decide (String "-" _ = "")) as [He|_]; [done|].
    unfold acceptSign. cbn [Ascii.eqb Bool.eqb orb].
    rewrite (acceptDigits_uint d rest Hrest).
    destruct (decide (_ = "")) as [He|_];
      [by destruct (uint_text_nonempty d Hd)|].
    rewrite app_cons, app_empty_l, (ParseInt_minus d Hd).
    assert (0 ≤ Z.of_uint d) as H0 by (unfold Z.of_uint; lia).
    destruct (Z.of_uint d >? 2 ^ 63) eqn:E; simpl.
    - case_decide; [lia|done].
    - apply Hback. lia. }
  unfold itoa. destruct z as [|p|p]; simpl Z.to_int.
  - change (NilEmpty.string_of_int (Decimal.Pos (Decimal.D0 Decimal.Nil)))
      with (NilEmpty.string_of_uint (Decimal.D0 Decimal.Nil)).
    by rewrite Hplus.
  - change (NilEmpty.string_of_int (Decimal.Pos (Pos.to_uint p)))
      with (NilEmpty.string_of_uint (Pos.to_uint p)).
    rewrite Hplus by apply Unsigned.to_uint_nonnil.
    unfold Z.of_uint. by rewrite DecimalPos.Unsigned.of_to.
  - change (NilEmpty.string_of_int (Decimal.Neg (Pos.to_uint p)))
      with (String "-" (NilEmpty.string_of_uint (Pos.to_uint p))).
    rewrite app_cons, Hminus by apply Unsigned.to_uint_nonnil.
    unfold Z.of_uint. by rewrite DecimalPos.Unsigned.of_to.
Qed.

(** [Sscanf] returns an error on a text that begins with a letter: no
    number is found. *)
Lemma Sscanf_letter (intBits : Z) (c : ascii) tail :
  Header.isLower c || Header.isUpper c = true →
  Sscanf intBits (String c tail) = None.
Proof.
  intros Hc.
  destruct c as [[] [] [] [] [] [] [] []]; try discriminate Hc;
    destruct tail as [|c2 [|c3 tail]]; reflexivity.
Qed.

End FmtFacts.

(** ** The handlers *)

Section HandlerFacts.

Context {Proxy : Type} {Ext : Externals Proxy}.
Variable intBits : Z.
Implicit Types (w : World Proxy) (index : Z).

(** The DELETE handler reads the number at the front of the index
    parameter and ignores what follows it. When that number is outside
    the list, the answer is status 400 with the error of RemoveEndpoint;
    when it does not fit in an int, or the parameter is empty or begins
    with a letter, the answer is status 400 with "invalid index" and
    RemoveEndpoint is not called. In all these cases nothing changes. *)
Theorem handleRemoveEndpoint_bad_index w z rest :
  0 < intBits ≤ 64 →
  fst (Fmt.acceptDigits rest) = "" →
  z < 0 ∨ Z.of_nat (length (Endpoints (config w))) ≤ z →
  handleRemoveEndpoint intBits (Strings.itoa z +:+ rest) w
  = ((StatusBadRequest,
      ErrorBody (if decide (- 2 ^ (intBits - 1) ≤ z < 2 ^ (intBits - 1))
                 then "invalid endpoint index: " +:+ Strings.itoa z
                 else "invalid index")), w)
  ∧ (∀ z', handleRemoveEndpoint intBits (Strings.itoa z' +:+ rest) w
           = handleRemoveEndpoint intBits (Strings.itoa z') w)
  ∧ handleRemoveEndpoint intBits "" w
    = ((StatusBadRequest, ErrorBody "invalid index"), w)
  ∧ ∀ c tail,
      Header.isLower c || Header.isUpper c = true →
      handleRemoveEndpoint intBits (String c tail) w
      = ((StatusBadRequest, ErrorBody "invalid index"), w).
Proof.
  intros Hbits Hrest Hbad%badIndex_true. split_and!.
  - unfold handleRemoveEndpoint.
    rewrite (FmtFacts.Sscanf_numeral intBits z rest Hbits Hrest).
    case_decide; [|done].
    unfold RemoveEndpoint. unfold_method. by rewrite Hbad.
  - intros z'. unfold handleRemoveEndpoint.
    rewrite (FmtFacts.Sscanf_numeral intBits z' rest Hbits Hrest).
    pose proof (FmtFacts.Sscanf_numeral intBits z' "" Hbits eq_refl) as H0.
    rewrite StringsFacts.app_empty_r in H0. by rewrite H0.
  - done.
  - intros c tail Hc. unfold handleRemoveEndpoint.
    by rewrite (FmtFacts.Sscanf_letter intBits c tail Hc).
Qed.

(** For a parameter that is the text of a number, followed by anything
    that does not begin with a digit, the handler of the test answers
    status 200 with the result of TestEndpoint exactly when the number
    fits in an int, whatever the test gives: for an index outside the
    list the reply is 200 with the failure result, and nothing changes.
    A number that does not fit is answered with status 400 and "invalid
    index", and nothing changes. *)
Theorem handleTestEndpoint_200_iff_int w z rest :
  0 < intBits ≤ 64 →
  fst (Fmt.acceptDigits rest) = "" →
  let '(reply, w') := handleTestEndpoint intBits (Strings.itoa z +:+ rest) w in
  if decide (- 2 ^ (intBits - 1) ≤ z < 2 ^ (intBits - 1))
  then
    reply = (StatusOK, ResultBody (fst (TestEndpoint z w)))
    ∧ w' = snd (TestEndpoint z w)
    ∧ (z < 0 ∨ Z.of_nat (length (Endpoints (config w))) ≤ z →
       reply = (StatusOK,
                ResultBody (mkResult false ("Invalid endpoint index: "
                                            +:+ Strings.itoa z)))
       ∧ w' = w)
  else reply = (StatusBadRequest, ErrorBody "invalid index") ∧ w' = w.
Proof.
  intros Hbits Hrest. unfold handleTestEndpoint.
  rewrite (FmtFacts.Sscanf_numeral intBits z rest Hbits Hrest).
  case_decide; [|done]. unfold_method.
  destruct (TestEndpoint z w) as [r w'] eqn:Htest. simpl.
  split_and!; try done.
  intros Hbad%badIndex_true. revert Htest.
  unfold TestEndpoint. unfold_method. rewrite Hbad. by intros [= <- <-].
Qed.

(** savePort hands a port to the server exactly when the text was a whole
    number from 1 to 65535. *)
Lemma savePort_Some port z :
  savePort port = Some z ↔ port = Whole z ∧ 1 ≤ z ≤ 65535.
Proof.
  unfold savePort, portRefused.
  destruct port as [| |z']; [by split; [|intros [? _]].. |].
  destruct ((z' =? 0) || (z' <? 1) || (z' >? 65535)) eqn:E.
  - split; [done|]. intros [[= ->] Hz].
    rewrite !orb_true_iff, Z.eqb_eq, Z.ltb_lt, Z.gtb_ltb, Z.ltb_lt in E. lia.
  - rewrite !orb_false_iff, Z.eqb_neq, Z.ltb_ge, Z.gtb_ltb, Z.ltb_ge in E.
    split.
    + intros [= ->]. split; [done|lia].
    + by intros [[= ->] _].
Qed.

(** A port the front end lets through is never refused as invalid by the
    server: the handler stores it and answers 200, or 400 with the error
    of the save. *)
Theorem savePort_accepted_by_server w port z :
  savePort port = Some z →
  let '(reply, w') := handleUpdatePort (inr z) w in
  Port (config w') = z
  ∧ reply = match ConfigSave (configPath w) (setPort z (config w)) with
            | None => (StatusOK, MessageBody "success")
            | Some e => (StatusBadRequest, ErrorBody e)
            end.
Proof.
  intros [_ Hz]%savePort_Some. unfold handleUpdatePort, UpdatePort.
  unfold_method.
  assert ((z <? 1) || (z >? 65535) = false) as ->
    by (rewrite Z.gtb_ltb, orb_false_iff, !Z.ltb_ge; lia).
  simpl. by destruct (ConfigSave _ _).
Qed.

End HandlerFacts.

(** ** The further properties at concrete inputs *)

Section MoreInstances.

Import Sample Cases.

Lemma RemoveEndpoint_takes_one_out_at_1 :
  let w := started cfg3 in
  let eps' := Endpoints (config (snd (RemoveEndpoint (Ext := live) 1 w))) in
  (0 ≤ 1 ∧ Endpoints (config w) !! Z.to_nat 1 = Some openai)
  ∧ eps' = [anthropic; gemini]
  ∧ S (length eps') = length (Endpoints (config w))
  ∧ (∀ j, (j < Z.to_nat 1)%nat → eps' !! j = Endpoints (config w) !! j)
  ∧ (∀ j, (Z.to_nat 1 ≤ j)%nat → eps' !! j = Endpoints (config w) !! S j).
Proof.
  intros w eps'.
  assert (0 ≤ 1) as H0 by lia.
  assert (Endpoints (config w) !! Z.to_nat 1 = Some openai) as H1 by reflexivity.
  split; [by split|]. split; [reflexivity|].
  exact (RemoveEndpoint_takes_one_out (Ext := live) w 1 openai H0 H1).
Defined.

Lemma ToggleEndpoint_sets_flag_unvalidated_at_0 :
  let w := started cfg1 in
  let eps' := Endpoints (config (snd (ToggleEndpoint (Ext := live) 0 false w))) in
  (0 ≤ 0 ∧ Endpoints (config w) !! Z.to_nat 0 = Some anthropic)
  ∧ fst (ToggleEndpoint (Ext := live) 0 false w) = None
  ∧ eps' !! Z.to_nat 0
    = Some (mkEndpoint (Name anthropic) (APIUrl anthropic) (APIKey anthropic)
              false (Transformer anthropic) (Model anthropic) (Remark anthropic))
  ∧ length eps' = length (Endpoints (config w))
  ∧ (∀ j, j ≠ Z.to_nat 0 → eps' !! j = Endpoints (config w) !! j)
  ∧ ∀ v, ToggleEndpoint (Ext := withValidate v live) 0 false w
         = ToggleEndpoint (Ext := live) 0 false w.
Proof.
  intros w eps'.
  assert (0 ≤ 0) as H0 by lia.
  assert (Endpoints (config w) !! Z.to_nat 0 = Some anthropic) as H1
    by reflexivity.
  split; [by split|]. split; [reflexivity|].
  exact (ToggleEndpoint_sets_flag_unvalidated (Ext := live) w 0 anthropic false
           H0 H1).
Defined.

Lemma AddEndpoint_refused_stays_in_memory_at_no_key :
  let w := started cfg3 in
  let added :=
    setEndpoints
      (Endpoints (config w)
       ++ [mkEndpoint "new" (normalizeAPIUrl "https://h.example.com/") "" true
             (orClaude "") "" ""]) (config w) in
  ConfigValidate (Externals := strict) added = Some "API key is required"
  ∧ AddEndpoint (Ext := strict) "new" "https://h.example.com/" "" "" "" "" w
    = (Some "API key is required", withConfig added w).
Proof.
  intros w added.
  assert (ConfigValidate (Externals := strict) added
          = Some "API key is required") as H by reflexivity.
  split; [exact H|].
  exact (AddEndpoint_refused_stays_in_memory (Ext := strict) w
           "API key is required" "new" "https://h.example.com/" "" "" "" "" H).
Defined.

Lemma refused_endpoint_saved_by_toggle_at_no_key :
  let w := started cfg3 in
  let e := mkEndpoint "new" (normalizeAPIUrl "https://h.example.com/") "" true
             (orClaude "") "" "" in
  let added := setEndpoints (Endpoints (config w) ++ [e]) (config w) in
  let px := mkProxy (Some 3000) (Endpoints added) ∅ in
  (ConfigValidate (Externals := strict) added = Some "API key is required"
   ∧ ProxyUpdateConfig (Externals := strict) added (proxy w) = (None, px)
   ∧ ConfigSave (Externals := strict) (configPath w) added = None)
  ∧ let '(err1, w1) :=
      AddEndpoint (Ext := strict) "new" "https://h.example.com/" "" "" "" "" w in
    let '(err2, w2) :=
      ToggleEndpoint (Ext := strict)
        (Z.of_nat (length (Endpoints (config w)))) true w1 in
    err1 = Some "API key is required"
    ∧ err2 = None
    ∧ config w2 = added
    ∧ proxy w2 = px
    ∧ disk w2 !! configPath w2 = Some added
    ∧ e ∈ Endpoints added.
Proof.
  intros w e added px.
  assert (ConfigValidate (Externals := strict) added
          = Some "API key is required") as H1 by reflexivity.
  assert (ProxyUpdateConfig (Externals := strict) added (proxy w) = (None, px))
    as H2 by reflexivity.
  assert (ConfigSave (Externals := strict) (configPath w) added = None)
    as H3 by reflexivity.
  split; [by split_and!|].
  exact (refused_endpoint_saved_by_toggle (Ext := strict) w
           "API key is required" px "new" "https://h.example.com/" "" "" "" ""
           H1 H2 H3).
Defined.

Lemma ReorderEndpoints_rearranges_at_sample :
  let w := started cfg3 in
  let names := ["gm"; "main"; "oa"] in
  let eps' := Endpoints (config (snd (ReorderEndpoints (Ext := live) names w))) in
  (NoDup (Name <$> Endpoints (config w))
   ∧ names ≡ₚ Name <$> Endpoints (config w))
  ∧ eps' = [gemini; anthropic; openai]
  ∧ Name <$> eps' = names
  ∧ eps' ≡ₚ Endpoints (config w).
Proof.
  intros w names eps'.
  assert (NoDup (Name <$> Endpoints (config w))) as H1
    by (apply (bool_decide_unpack _); vm_compute; exact I).
  assert (names ≡ₚ Name <$> Endpoints (config w)) as H2
    by (apply (bool_decide_unpack _); vm_compute; exact I).
  split; [by split|]. split; [reflexivity|].
  exact (ReorderEndpoints_rearranges (Ext := live) w names H1 H2).
Defined.

Lemma ReorderEndpoints_refuses_at_unknown_name :
  let w := started cfg3 in
  let names := ["gm"; "main"; "zz"] in
  ¬ (NoDup (Name <$> Endpoints (config w))
     ∧ names ≡ₚ Name <$> Endpoints (config w))
  ∧ ReorderEndpoints (Ext := live) names w = (Some "endpoint not found: zz", w)
  ∧ ∃ msg, ReorderEndpoints (Ext := live) names w = (Some msg, w).
Proof.
  intros w names.
  assert (¬ (NoDup (Name <$> Endpoints (config w))
             ∧ names ≡ₚ Name <$> Endpoints (config w))) as H
    by (apply (bool_decide_unpack _); vm_compute; exact I).
  split; [exact H|]. split; [reflexivity|].
  exact (ReorderEndpoints_refuses (Ext := live) w names H).
Defined.

Lemma AppUpdateConfig_save_failure_at_full_disk :
  let w := started cfg3 in
  let px := mkProxy (Some 3000) (Endpoints cfg1) ∅ in
  (parse "{}" = inr cfg1
   ∧ ConfigValidate (Externals := diskFull) cfg1 = None
   ∧ ProxyUpdateConfig (Externals := diskFull) cfg1 (proxy w) = (None, px)
   ∧ ConfigSave (Externals := diskFull) (configPath w) cfg1
     = Some "no space left on device")
  ∧ Endpoints (config w) = [anthropic; openai; gemini]
  ∧ AppUpdateConfig (Ext := diskFull) parse "{}" w
    = (Some ("failed to save config: " +:+ "no space left on device"),
       withProxy px w).
Proof.
  intros w px.
  assert (parse "{}" = inr cfg1) as H1 by reflexivity.
  assert (ConfigValidate (Externals := diskFull) cfg1 = None) as H2
    by reflexivity.
  assert (ProxyUpdateConfig (Externals := diskFull) cfg1 (proxy w) = (None, px))
    as H3 by reflexivity.
  assert (ConfigSave (Externals := diskFull) (configPath w) cfg1
          = Some "no space left on device") as H4 by reflexivity.
  split; [by split_and!|]. split; [reflexivity|].
  exact (AppUpdateConfig_save_failure (Ext := diskFull) parse "{}" w cfg1 px
           "no space left on device" H1 H2 H3 H4).
Defined.

Lemma Startup_restores_level_from_0_at_minus_1 :
  let w := started cfg3 in
  let p := process SIGTERM None in
  let w1 := snd (SetLogLevel (Ext := onLevelMinus1) (-1) w) in
  (ConfigSave (Externals := onLevelMinus1) (configPath w)
     (setLogLevel (-1) (config w)) = None
   ∧ GetConfigPath (Externals := onLevelMinus1) = inr (configPath w)
   ∧ (∀ c, disk w1 !! configPath w = Some c →
           ConfigLoad (Externals := onLevelMinus1) (configPath w) = inr c))
  ∧ minLevel w1 = Some (-1)
  ∧ minLevel (snd (Startup (Ext := onLevelMinus1) p))
    = (if -1 >=? 0 then Some (-1) else None).
Proof.
  intros w p w1.
  assert (ConfigSave (Externals := onLevelMinus1) (configPath w)
            (setLogLevel (-1) (config w)) = None) as H1 by reflexivity.
  assert (GetConfigPath (Externals := onLevelMinus1) = inr (configPath w))
    as H2 by reflexivity.
  assert (∀ c, disk w1 !! configPath w = Some c →
               ConfigLoad (Externals := onLevelMinus1) (configPath w) = inr c)
    as H3.
  { intros c Hc. vm_compute in Hc. injection Hc as <-. reflexivity. }
  split; [by split_and!|]. split; [reflexivity|].
  exact (Startup_restores_level_from_0 (Ext := onLevelMinus1) p w (-1) H1 H2 H3).
Defined.

Lemma Startup_after_UpdatePort_at_9000 :
  let w := started cfg3 in
  let p := process SIGTERM None in
  let w1 := snd (UpdatePort (Ext := onPort9000) 9000 w) in
  (1 ≤ 9000 ≤ 65535
   ∧ ConfigSave (Externals := onPort9000) (configPath w)
       (setPort 9000 (config w)) = None
   ∧ GetConfigPath (Externals := onPort9000) = inr (configPath w)
   ∧ (∀ c, disk w1 !! configPath w = Some c →
           ConfigLoad (Externals := onPort9000) (configPath w) = inr c))
  ∧ Listening (Externals := onPort9000)
      (proxy (snd (Startup (Ext := onPort9000) p))) = Some 9000
  ∧ let w2 := snd (Startup (Ext := onPort9000) p) in
    Port (config w2) = 9000
    ∧ proxy w2
      = snd (ProxyStart (Externals := onPort9000) (setPort 9000 (config w))
               (ProxyNew (Externals := onPort9000) (setPort 9000 (config w)))).
Proof.
  intros w p w1.
  assert (1 ≤ 9000 ≤ 65535) as H0 by lia.
  assert (ConfigSave (Externals := onPort9000) (configPath w)
            (setPort 9000 (config w)) = None) as H1 by reflexivity.
  assert (GetConfigPath (Externals := onPort9000) = inr (configPath w))
    as H2 by reflexivity.
  assert (∀ c, disk w1 !! configPath w = Some c →
               ConfigLoad (Externals := onPort9000) (configPath w) = inr c)
    as H3.
  { intros c Hc. vm_compute in Hc. injection Hc as <-. reflexivity. }
  split; [by split_and!|]. split; [reflexivity|].
  exact (Startup_after_UpdatePort (Ext := onPort9000) p w 9000 H0 H1 H2 H3).
Defined.

End MoreInstances.

Section LiveInstances.

Import Sample Cases.
#[local] Existing Instance live.

Lemma UpdatePort_rejects_at_70000 :
  let w := started cfg3 in
  (70000 < 1 ∨ 65535 < 70000)
  ∧ UpdatePort 70000 w = (Some ("invalid port: " +:+ Strings.itoa 70000), w).
Proof.
  intros w.
  assert (70000 < 1 ∨ 65535 < 70000) as H by lia.
  split; [exact H|].
  exact (UpdatePort_rejects w 70000 H).
Defined.

Lemma GetSystemLanguage_zh_anywhere_at_zh_CN :
  let env := mkLocale "zh_CN.UTF-8" "" "" in
  (envLANG env ≠ "" ∧ StringsExt.isASCII (envLANG env) = true)
  ∧ GetSystemLanguage noMap env = "zh-CN"
  ∧ (GetSystemLanguage noMap env = "zh-CN"
     ↔ ∃ pre c1 c2 post,
         envLANG env = pre +:+ String c1 (String c2 post)
         ∧ (c1 = "z"%char ∨ c1 = "Z"%char) ∧ (c2 = "h"%char ∨ c2 = "H"%char)).
Proof.
  intros env.
  assert (envLANG env ≠ "") as H1 by done.
  assert (StringsExt.isASCII (envLANG env) = true) as H2 by reflexivity.
  split; [by split|]. split; [reflexivity|].
  exact (LanguageFacts.GetSystemLanguage_zh_anywhere noMap env H1 H2).
Defined.

Lemma TestEndpoint_succeeds_iff_at_0 :
  let w := started cfg3 in
  (0 ≤ 0 ∧ Endpoints (config w) !! Z.to_nat 0 = Some anthropic)
  ∧ success (fst (TestEndpoint 0 w)) = true
  ∧ (success (fst (TestEndpoint 0 w)) = true
     ↔ ∃ req resp body,
         testRequest anthropic = inr req
         ∧ ClientDo testClient req = inr resp
         ∧ StatusCode resp = StatusOK
         ∧ ReadAll resp = inr body).
Proof.
  intros w.
  assert (0 ≤ 0) as H0 by lia.
  assert (Endpoints (config w) !! Z.to_nat 0 = Some anthropic) as H1
    by reflexivity.
  split; [by split|]. split; [reflexivity|].
  exact (TestEndpoint_succeeds_iff w 0 anthropic H0 H1).
Defined.

Lemma TestEndpoint_message_of_reply_at_0 :
  let w := started cfg3 in
  let req := match testRequest anthropic with
             | inr r => r
             | inl _ => mkRequest "" "" [] ∅ JNull
             end in
  let resp := mkResponse 200 (inr "{}") in
  (0 ≤ 0
   ∧ Endpoints (config w) !! Z.to_nat 0 = Some anthropic
   ∧ testRequest anthropic = inr req
   ∧ ClientDo testClient req = inr resp
   ∧ StatusCode resp = StatusOK
   ∧ ReadAll resp = inr "{}")
  ∧ message (fst (TestEndpoint 0 w)) = "{}"
  ∧ let msg := message (fst (TestEndpoint 0 w)) in
    let text := match Unmarshal "{}" with
                | Some data => extractMessage (orClaude (Transformer anthropic)) data
                | None => ""
                end in
    msg = (if decide (text = "") then "{}" else text)
    ∧ (msg = "" → "{}" = "").
Proof.
  intros w req resp.
  assert (0 ≤ 0) as H0 by lia.
  assert (Endpoints (config w) !! Z.to_nat 0 = Some anthropic) as H1
    by reflexivity.
  assert (testRequest anthropic = inr req) as H2 by reflexivity.
  assert (ClientDo testClient req = inr resp) as H3 by reflexivity.
  assert (StatusCode resp = StatusOK) as H4 by reflexivity.
  assert (ReadAll resp = inr "{}") as H5 by reflexivity.
  split; [by split_and!|]. split; [reflexivity|].
  exact (TestEndpoint_message_of_reply w 0 anthropic req resp "{}"
           H0 H1 H2 H3 H4 H5).
Defined.

Lemma handleRemoveEndpoint_bad_index_at_7abc :
  let w := started cfg3 in
  (0 < 64 ≤ 64
   ∧ fst (Fmt.acceptDigits "abc") = ""
   ∧ (7 < 0 ∨ Z.of_nat (length (Endpoints (config w))) ≤ 7))
  ∧ handleRemoveEndpoint 64 "7abc" w
    = ((StatusBadRequest, ErrorBody "invalid endpoint index: 7"), w)
  ∧ handleRemoveEndpoint 64 "99999999999999999999" w
    = ((StatusBadRequest, ErrorBody "invalid index"), w)
  ∧ handleRemoveEndpoint 64 (Strings.itoa 7 +:+ "abc") w
    = ((StatusBadRequest,
        ErrorBody (if decide (- 2 ^ (64 - 1) ≤ 7 < 2 ^ (64 - 1))
                   then "invalid endpoint index: " +:+ Strings.itoa 7
                   else "invalid index")), w)
  ∧ (∀ z', handleRemoveEndpoint 64 (Strings.itoa z' +:+ "abc") w
           = handleRemoveEndpoint 64 (Strings.itoa z') w)
  ∧ handleRemoveEndpoint 64 "" w
    = ((StatusBadRequest, ErrorBody "invalid index"), w)
  ∧ ∀ c tail,
      Header.isLower c || Header.isUpper c = true →
      handleRemoveEndpoint 64 (String c tail) w
      = ((StatusBadRequest, ErrorBody "invalid index"), w).
Proof.
  intros w.
  assert (0 < 64 ≤ 64) as H1 by lia.
  assert (fst (Fmt.acceptDigits "abc") = "") as H2 by reflexivity.
  assert (7 < 0 ∨ Z.of_nat (length (Endpoints (config w))) ≤ 7) as H3
    by (right; vm_compute; discriminate).
  split; [by split_and!|]. split; [reflexivity|]. split; [reflexivity|].
  exact (handleRemoveEndpoint_bad_index 64 w 7 "abc" H1 H2 H3).
Defined.

Lemma handleTestEndpoint_200_iff_int_at_7 :
  let w := started cfg3 in
  (0 < 64 ≤ 64 ∧ fst (Fmt.acceptDigits "") = "")
  ∧ handleTestEndpoint 64 "7" w
    = ((StatusOK, ResultBody (mkResult false "Invalid endpoint index: 7")), w)
  ∧ handleTestEndpoint 64 "99999999999999999999" w
    = ((StatusBadRequest, ErrorBody "invalid index"), w)
  ∧ let '(reply, w') := handleTestEndpoint 64 (Strings.itoa 7 +:+ "") w in
    if decide (- 2 ^ (64 - 1) ≤ 7 < 2 ^ (64 - 1))
    then
      reply = (StatusOK, ResultBody (fst (TestEndpoint 7 w)))
      ∧ w' = snd (TestEndpoint 7 w)
      ∧ (7 < 0 ∨ Z.of_nat (length (Endpoints (config w))) ≤ 7 →
         reply = (StatusOK,
                  ResultBody (mkResult false ("Invalid endpoint index: "
                                              +:+ Strings.itoa 7)))
         ∧ w' = w)
    else reply = (StatusBadRequest, ErrorBody "invalid index") ∧ w' = w.
Proof.
  intros w.
  assert (0 < 64 ≤ 64) as H1 by lia.
  assert (fst (Fmt.acceptDigits "") = "") as H2 by reflexivity.
  split; [by split|]. split; [reflexivity|]. split; [reflexivity|].
  exact (handleTestEndpoint_200_iff_int 64 w 7 "" H1 H2).
Defined.

Lemma savePort_accepted_by_server_at_9000 :
  let w := started cfg3 in
  savePort (Whole 9000) = Some 9000
  ∧ let '(reply, w') := handleUpdatePort (inr 9000) w in
    Port (config w') = 9000
    ∧ reply = match ConfigSave (configPath w) (setPort 9000 (config w)) with
              | None => (StatusOK, MessageBody "success")
              | Some e => (StatusBadRequest, ErrorBody e)
              end.
Proof.
  intros w.
  assert (savePort (Whole 9000) = Some 9000) as H by reflexivity.
  split; [exact H|].
  exact (savePort_accepted_by_server w (Whole 9000) 9000 H).
Defined.

End LiveInstances.
